(** * Transaction lifecycle of the Stellar Wrapped front end

    A shallow embedding of

    - [app/store/transactionStore.ts]   (the persisted zustand store),
    - [services/transactionObserver.ts] (the [TransactionObserver] class and
      its confirmation poller),
    - [app/utils/walletKit.ts]          ([fetchIndexedStats], [mintWrap] and
      its [bridgedObserver]), and the earlier revision of the same file that
      drives the [TransactionObserver] singleton,

    followed by the properties of the lifecycle that the specification
    states.  The JavaScript event loop is modelled by explicit events: the
    clock advancing, a timer being run by the host, and the answer of an
    awaited [server.getTransaction] call arriving. *)

From Stdlib Require Import String List ZArith Lia Bool.
From Stdlib Require Import Floats.PrimFloat.
Import ListNotations.

Local Open Scope string_scope.
Local Open Scope Z_scope.

(* ================================================================== *)
(** ** app/store/transactionStore.ts *)

Inductive TransactionState : Type :=
| idle | building | simulating | simulated | signing | signed
| submitting | submitted | confirming | confirmed | failed.

Definition TransactionState_eqb (a b : TransactionState) : bool :=
  match a, b with
  | idle, idle | building, building | simulating, simulating
  | simulated, simulated | signing, signing | signed, signed
  | submitting, submitting | submitted, submitted
  | confirming, confirming | confirmed, confirmed | failed, failed => true
  | _, _ => false
  end.

(** The three data fields of [TransactionStoreState]; [None] is [null]. *)
Record Store : Type := mkStore {
  transactionState : TransactionState;
  transactionHash  : option string;
  transactionError : option string
}.

(** The store as [create] builds it. *)
Definition initialStore : Store :=
  {| transactionState := idle; transactionHash := None; transactionError := None |}.

(** One call of zustand's [set]: the partial state handed to it.  Every
    [set] notifies the subscribers of the store, so the list of patches is
    the sequence of notifications the persisted sink has received. *)
Inductive Patch : Type :=
| PState (s : TransactionState)       (* set({ transactionState: s }) *)
| PHash  (h : option string)          (* set({ transactionHash: h })  *)
| PError (e : option string)          (* set({ transactionError: e }) *)
| PReset.                             (* the three fields at once     *)

Definition apply_patch (p : Patch) (s : Store) : Store :=
  match p with
  | PState t => {| transactionState := t;
                   transactionHash := transactionHash s;
                   transactionError := transactionError s |}
  | PHash h  => {| transactionState := transactionState s;
                   transactionHash := h;
                   transactionError := transactionError s |}
  | PError e => {| transactionState := transactionState s;
                   transactionHash := transactionHash s;
                   transactionError := e |}
  | PReset   => initialStore
  end.

(* ================================================================== *)
(** ** The process-wide state *)

(** What a scheduled timer runs.  The interval callback of [startPolling]
    closes over [txHash]; the timeout callback closes over nothing. *)
Inductive TimerKind : Type :=
| PollTick (txHash : string)
| Deadline.

Record Timer : Type := mkTimer {
  t_id   : nat;
  t_kind : TimerKind;
  t_due  : Z            (* earliest time, in ms, at which the host may run it *)
}.

Record World : Type := mkWorld {
  store         : Store;                 (* useTransactionStore.getState()          *)
  writes        : list Patch;            (* every set() so far, oldest first        *)
  pollInterval  : option nat;            (* TransactionObserver.pollInterval        *)
  timeoutTimer  : option nat;            (* TransactionObserver.timeoutTimer        *)
  timers        : list Timer;            (* host timers that are set and not cleared *)
  next_timer    : nat;                   (* next handle setInterval/setTimeout gives *)
  pending       : list (nat * string);   (* getTransaction calls awaiting an answer  *)
  queries       : list string;           (* every getTransaction(hash), oldest first *)
  now           : Z;                     (* the clock, in ms                        *)
  warnings      : nat;                   (* console.warn / console.error calls      *)
  isInitialized : bool                   (* walletKit.ts: let isInitialized         *)
}.

Definition initialWorld : World :=
  {| store := initialStore; writes := []; pollInterval := None;
     timeoutTimer := None; timers := []; next_timer := 0%nat; pending := [];
     queries := []; now := 0; warnings := 0%nat; isInitialized := false |}.

Definition with_store (s : Store) (p : Patch) (w : World) : World :=
  {| store := s; writes := writes w ++ [p];
     pollInterval := pollInterval w; timeoutTimer := timeoutTimer w;
     timers := timers w; next_timer := next_timer w; pending := pending w;
     queries := queries w; now := now w; warnings := warnings w;
     isInitialized := isInitialized w |}.

Definition with_pollInterval (v : option nat) (w : World) : World :=
  {| store := store w; writes := writes w;
     pollInterval := v; timeoutTimer := timeoutTimer w;
     timers := timers w; next_timer := next_timer w; pending := pending w;
     queries := queries w; now := now w; warnings := warnings w;
     isInitialized := isInitialized w |}.

Definition with_timeoutTimer (v : option nat) (w : World) : World :=
  {| store := store w; writes := writes w;
     pollInterval := pollInterval w; timeoutTimer := v;
     timers := timers w; next_timer := next_timer w; pending := pending w;
     queries := queries w; now := now w; warnings := warnings w;
     isInitialized := isInitialized w |}.

Definition with_timers (ts : list Timer) (w : World) : World :=
  {| store := store w; writes := writes w;
     pollInterval := pollInterval w; timeoutTimer := timeoutTimer w;
     timers := ts; next_timer := next_timer w; pending := pending w;
     queries := queries w; now := now w; warnings := warnings w;
     isInitialized := isInitialized w |}.

Definition with_next_timer (n : nat) (w : World) : World :=
  {| store := store w; writes := writes w;
     pollInterval := pollInterval w; timeoutTimer := timeoutTimer w;
     timers := timers w; next_timer := n; pending := pending w;
     queries := queries w; now := now w; warnings := warnings w;
     isInitialized := isInitialized w |}.

Definition with_pending (ps : list (nat * string)) (w : World) : World :=
  {| store := store w; writes := writes w;
     pollInterval := pollInterval w; timeoutTimer := timeoutTimer w;
     timers := timers w; next_timer := next_timer w; pending := ps;
     queries := queries w; now := now w; warnings := warnings w;
     isInitialized := isInitialized w |}.

Definition with_queries (qs : list string) (w : World) : World :=
  {| store := store w; writes := writes w;
     pollInterval := pollInterval w; timeoutTimer := timeoutTimer w;
     timers := timers w; next_timer := next_timer w; pending := pending w;
     queries := qs; now := now w; warnings := warnings w;
     isInitialized := isInitialized w |}.

Definition with_now (t : Z) (w : World) : World :=
  {| store := store w; writes := writes w;
     pollInterval := pollInterval w; timeoutTimer := timeoutTimer w;
     timers := timers w; next_timer := next_timer w; pending := pending w;
     queries := queries w; now := t; warnings := warnings w;
     isInitialized := isInitialized w |}.

Definition with_warnings (n : nat) (w : World) : World :=
  {| store := store w; writes := writes w;
     pollInterval := pollInterval w; timeoutTimer := timeoutTimer w;
     timers := timers w; next_timer := next_timer w; pending := pending w;
     queries := queries w; now := now w; warnings := n;
     isInitialized := isInitialized w |}.

Definition with_isInitialized (b : bool) (w : World) : World :=
  {| store := store w; writes := writes w;
     pollInterval := pollInterval w; timeoutTimer := timeoutTimer w;
     timers := timers w; next_timer := next_timer w; pending := pending w;
     queries := queries w; now := now w; warnings := warnings w;
     isInitialized := b |}.

(** The store's actions: each is one [set]. *)
Definition store_set (p : Patch) (w : World) : World :=
  with_store (apply_patch p (store w)) p w.

Definition setTransactionState (s : TransactionState) : World -> World :=
  store_set (PState s).
Definition setTransactionHash (h : option string) : World -> World :=
  store_set (PHash h).
Definition setTransactionError (e : option string) : World -> World :=
  store_set (PError e).
Definition resetTransaction : World -> World :=
  store_set PReset.

(* ================================================================== *)
(** ** The host: timers and the console *)

Definition setTimer (k : TimerKind) (delay : Z) (w : World) : World * nat :=
  let id := next_timer w in
  (with_next_timer (S id)
     (with_timers (timers w ++ [mkTimer id k (now w + delay)]) w), id).

(** [clearInterval] and [clearTimeout]: the timer with that handle is never
    run again. *)
Definition clearTimer (id : nat) (w : World) : World :=
  with_timers (filter (fun t => negb (Nat.eqb (t_id t) id)) (timers w)) w.

Definition find_timer (id : nat) (w : World) : option Timer :=
  find (fun t => Nat.eqb (t_id t) id) (timers w).

Definition rearm (id : nat) (due : Z) (w : World) : World :=
  with_timers
    (map (fun t => if Nat.eqb (t_id t) id then mkTimer id (t_kind t) due else t)
         (timers w)) w.

Definition console_log (w : World) : World := with_warnings (S (warnings w)) w.

(* ================================================================== *)
(** ** services/transactionObserver.ts *)

Definition MAX_POLLING_DURATION : Z := 60000.
Definition POLLING_INTERVAL : Z := 3000.

(** The argument of [markFailed]: [Error | string]. *)
Inductive ErrorArg : Type :=
| ErrObject (message : string)     (* an Error instance *)
| ErrString (s : string).

Inductive GetTransactionStatus : Type := SUCCESS | FAILED | NOT_FOUND.

(** What [await server.getTransaction(txHash)] yields when it does not
    throw: a falsy value, or a response carrying a status. *)
Inductive Response : Type :=
| RFalsy
| RStatus (s : GetTransactionStatus).

Definition setState (s : TransactionState) : World -> World :=
  setTransactionState s.

Definition clearTimers (w : World) : World :=
  let w1 := match pollInterval w with
            | Some i => with_pollInterval None (clearTimer i w)
            | None => w
            end in
  match timeoutTimer w1 with
  | Some t => with_timeoutTimer None (clearTimer t w1)
  | None => w1
  end.

Definition markFailed (error : ErrorArg) (w : World) : World :=
  let w := clearTimers w in
  let errorMessage := match error with
                      | ErrObject message => message
                      | ErrString s => s
                      end in
  let w := setTransactionError (Some errorMessage) w in
  setState failed w.

Definition startPolling (txHash : string) (w : World) : World :=
  let w := setState confirming w in
  let w := clearTimers w in
  let '(w, i) := setTimer (PollTick txHash) POLLING_INTERVAL w in
  let w := with_pollInterval (Some i) w in
  let '(w, t) := setTimer Deadline MAX_POLLING_DURATION w in
  with_timeoutTimer (Some t) w.

Definition resetState (w : World) : World :=
  resetTransaction (clearTimers w).

Definition startTransaction (w : World) : World :=
  setState building (resetState w).

Definition markSimulating : World -> World := setState simulating.
Definition markSimulated  : World -> World := setState simulated.
Definition markSigning    : World -> World := setState signing.
Definition markSigned     : World -> World := setState signed.
Definition markSubmitting : World -> World := setState submitting.

Definition markSubmitted (txHash : string) (w : World) : World :=
  let w := setTransactionHash (Some txHash) w in
  let w := setState submitted w in
  startPolling txHash w.

(** JavaScript truthiness of a [string | null]. *)
Definition truthy_string (s : option string) : bool :=
  match s with
  | Some h => negb (String.eqb h "")
  | None => false
  end.

Definition resumeIfPending (w : World) : World :=
  let state := store w in
  if (TransactionState_eqb (transactionState state) submitted
      || TransactionState_eqb (transactionState state) confirming)
     && truthy_string (transactionHash state)
  then match transactionHash state with
       | Some h => startPolling h w
       | None => w
       end
  else w.

(** The interval callback up to its [await]: [checkTransactionStatus] calls
    [server.getTransaction(txHash)] and suspends.  The call is logged and
    left pending; its handle is its position in the log. *)
Definition checkTransactionStatus (txHash : string) (w : World) : World :=
  let q := length (queries w) in
  with_pending (pending w ++ [(q, txHash)])
    (with_queries (queries w ++ [txHash]) w).

(** [checkTransactionStatus] after the [await], when the call answered. *)
Definition checkTransactionStatus_resume (r : Response) (w : World) : World :=
  match r with
  | RStatus SUCCESS => setState confirmed (clearTimers w)
  | RStatus FAILED =>
      markFailed (ErrString "Transaction failed on the ledger.") (clearTimers w)
  | RStatus NOT_FOUND => w
  | RFalsy => w
  end.

(** [checkTransactionStatus] when the call threw or rejected: the [catch]
    warns on the console and returns, so the [catch] of the interval
    callback is never entered. *)
Definition checkTransactionStatus_catch (w : World) : World := console_log w.

(** The timeout callback of [startPolling]. *)
Definition timeout_message : string :=
  "Transaction confirmation timed out after 60 seconds.".

Definition onDeadline (w : World) : World :=
  markFailed (ErrString timeout_message) (clearTimers w).

(* ================================================================== *)
(** ** The event loop *)

(** What can happen to the process: a call of a public method of the
    [transactionObserver] singleton, the clock moving on, the host running a
    timer, or a pending [getTransaction] call answering or failing. *)
Inductive Event : Type :=
| CallStartTransaction
| CallMarkSimulating
| CallMarkSimulated
| CallMarkSigning
| CallMarkSigned
| CallMarkSubmitting
| CallMarkSubmitted (txHash : string)
| CallMarkFailed (error : ErrorArg)
| CallResetState
| CallResumeIfPending
| Advance (dt : Z)
| TimerFire (id : nat)
| QueryReturn (q : nat) (r : Response)
| QueryThrow (q : nat).

(** The host runs a timer only if it is still set and due.  An interval
    timer stays set and is armed again; a timeout is dropped before its
    callback runs. *)
Definition fireTimer (id : nat) (w : World) : World :=
  match find_timer id w with
  | Some t =>
      if t_due t <=? now w then
        match t_kind t with
        | PollTick txHash =>
            checkTransactionStatus txHash (rearm id (now w + POLLING_INTERVAL) w)
        | Deadline => onDeadline (clearTimer id w)
        end
      else w
  | None => w
  end.

Definition is_pending (q : nat) (w : World) : bool :=
  existsb (fun p => Nat.eqb (fst p) q) (pending w).

(** The continuation [k] of the suspended [checkTransactionStatus] call [q]
    is resumed once, if that call is still awaiting its answer. *)
Definition resume (q : nat) (k : World -> World) (w : World) : World :=
  if is_pending q w
  then k (with_pending (filter (fun p => negb (Nat.eqb (fst p) q)) (pending w)) w)
  else w.

Definition step (e : Event) (w : World) : World :=
  match e with
  | CallStartTransaction => startTransaction w
  | CallMarkSimulating => markSimulating w
  | CallMarkSimulated => markSimulated w
  | CallMarkSigning => markSigning w
  | CallMarkSigned => markSigned w
  | CallMarkSubmitting => markSubmitting w
  | CallMarkSubmitted txHash => markSubmitted txHash w
  | CallMarkFailed error => markFailed error w
  | CallResetState => resetState w
  | CallResumeIfPending => resumeIfPending w
  | Advance dt => if 0 <=? dt then with_now (now w + dt) w else w
  | TimerFire id => fireTimer id w
  | QueryReturn q r => resume q (checkTransactionStatus_resume r) w
  | QueryThrow q => resume q checkTransactionStatus_catch w
  end.

Definition exec (es : list Event) (w : World) : World :=
  fold_left (fun w e => step e w) es w.

(** The events that are not calls from the application: time, timers and
    the network. *)
Definition is_environment (e : Event) : bool :=
  match e with
  | Advance _ | TimerFire _ | QueryReturn _ _ | QueryThrow _ => true
  | _ => false
  end.

(** The environment events of a run in which every status query answers
    [NOT_FOUND]. *)
Definition is_not_found_run (e : Event) : bool :=
  match e with
  | Advance _ | TimerFire _ | QueryReturn _ (RStatus NOT_FOUND) => true
  | _ => false
  end.

(** Events that only let time pass and run timers. *)
Definition is_timer_event (e : Event) : bool :=
  match e with
  | Advance _ | TimerFire _ => true
  | _ => false
  end.


(** The timers of a process are the two the observer holds handles of, or
    none. *)
Definition timers_owned (w : World) : Prop :=
  (pollInterval w = None /\ timeoutTimer w = None /\ timers w = [])
  \/ (exists i d h di dd,
        pollInterval w = Some i /\ timeoutTimer w = Some d /\ i <> d /\
        timers w = [mkTimer i (PollTick h) di; mkTimer d Deadline dd]).

(** States the process can be in: those a run leads to from the start. *)
Definition reachable (w : World) : Prop :=
  exists es, w = exec es initialWorld.

(* ================================================================== *)
(** ** A monad for code that throws *)

Inductive ErrorClass : Type :=
| ContractConfigurationError
| InvalidContractAddressError
| ContractNotFoundError
| ContractValidationError
| PlainError.                    (* Error, or a subclass not listed above *)

(** A thrown JavaScript value: an [Error] instance with its class and
    message, or a value that is not an [Error] instance. *)
Inductive Thrown : Type :=
| ThrownError (cls : ErrorClass) (message : string)
| ThrownValue (printed : string).

Inductive Res (A : Type) : Type :=
| Ok (a : A)
| Throw (e : Thrown).
Arguments Ok {A} a.
Arguments Throw {A} e.

Definition M (A : Type) : Type := World -> World * Res A.

Definition ret {A} (a : A) : M A := fun w => (w, Ok a).
Definition throw {A} (e : Thrown) : M A := fun w => (w, Throw e).
Definition bind {A B} (m : M A) (k : A -> M B) : M B :=
  fun w => match m w with
           | (w1, Ok a) => k a w1
           | (w1, Throw e) => (w1, Throw e)
           end.
Definition try_catch {A} (m : M A) (h : Thrown -> M A) : M A :=
  fun w => match m w with
           | (w1, Ok a) => (w1, Ok a)
           | (w1, Throw e) => h e w1
           end.
Definition lift (f : World -> World) : M unit := fun w => (f w, Ok tt).

Notation "x <- m ;; k" := (bind m (fun x => k))
  (at level 61, m at next level, right associativity).
Notation "m ;; k" := (bind m (fun _ => k))
  (at level 61, right associativity).

(* ================================================================== *)
(** ** app/utils/walletKit.ts *)

(** JavaScript truthiness of a [number]: zero and NaN are falsy. *)
Definition truthy_number (x : float) : bool :=
  negb (PrimFloat.is_zero x || PrimFloat.is_nan x).

(** What [fetchIndexedStats] returns. *)
Record IndexedStats : Type := mkIndexedStats {
  totalVolume     : float;
  mostActiveAsset : string;
  contractCalls   : float
}.

(** [MintWrapParams.stats]: the same with an optional [timeframe]. *)
Record Stats : Type := mkStats {
  stats_totalVolume     : float;
  stats_mostActiveAsset : string;
  stats_contractCalls   : float;
  stats_timeframe       : option string
}.

(** An [IndexedStats] value used where a [Stats] is expected. *)
Definition as_Stats (s : IndexedStats) : Stats :=
  {| stats_totalVolume := totalVolume s;
     stats_mostActiveAsset := mostActiveAsset s;
     stats_contractCalls := contractCalls s;
     stats_timeframe := None |}.

(** The [stats] of [MintWrapOptions], where [timeframe] is filled in. *)
Record OptionStats : Type := mkOptionStats {
  opt_totalVolume     : float;
  opt_mostActiveAsset : string;
  opt_contractCalls   : float;
  opt_timeframe       : string
}.

(** [MintWrapOptions] without its [observer], which [run_bridge] takes
    separately. *)
Record MintWrapOptions : Type := mkMintWrapOptions {
  accountAddress : string;
  opt_network    : string;
  opt_stats      : OptionStats
}.

(** The second argument of an observer call.  [mintWrap] only looks at it
    behind the guard [data && typeof data === 'object'], and reads the
    properties it finds as strings. *)
Inductive Payload : Type :=
| NoData                                       (* the guard fails *)
| DataObject (fields : list (string * string)).

Fixpoint property (key : string) (fields : list (string * string)) : option string :=
  match fields with
  | [] => None
  | (k, v) :: rest => if String.eqb k key then Some v else property key rest
  end.

(** The body of the JSON answer of [/api/wrapped], as far as
    [fetchIndexedStats] reads it; [None] is a property that is absent,
    [null] or [undefined]. *)
Record WrappedData : Type := mkWrappedData {
  data_totalVolume     : option float;
  data_mostActiveAsset : option string;
  data_contractCalls   : option float
}.

Inductive JsonOutcome : Type :=
| JsonRejects                     (* response.json() rejects             *)
| JsonNull                        (* the body is null: reading it throws *)
| JsonValue (data : WrappedData).

Inductive FetchOutcome : Type :=
| FetchRejects
| FetchResponds (ok : bool) (statusText : string) (json : JsonOutcome).

(** The run of [contractMintWrap] of [services/contractBridge], which is
    not part of these sources: it calls the observer it was given any
    number of times, may go on differently when a call throws, and ends by
    returning a transaction hash or throwing. *)
Inductive Bridge : Type :=
| BReturn (transactionHash : string)
| BThrow (e : Thrown)
| BNotify (state : string) (data : Payload) (k : option Thrown -> Bridge).

(** The collaborators [walletKit.ts] calls and the environment it reads. *)
Record Env : Type := mkEnv {
  hasWindow          : bool;                    (* typeof window !== "undefined"    *)
  kitInit            : option Thrown;           (* StellarWalletsKit.init throws?   *)
  encodeURIComponent : string -> option string; (* None: URIError                   *)
  fetch              : string -> FetchOutcome;
  contractMintWrap   : MintWrapOptions -> Bridge;
  NEXT_PUBLIC_CONTRACT_ADDRESS : option string
}.

Definition Observer : Type := string -> Payload -> M unit.

Record MintWrapParams : Type := mkMintWrapParams {
  userAddress : string;
  network     : string;
  stats       : option Stats;
  observer    : option Observer
}.

Definition initWalletKit (env : Env) : M unit :=
  fun w =>
    if negb (isInitialized w) && hasWindow env then
      match kitInit env with
      | Some e => (w, Throw e)
      | None => (with_isInitialized true w, Ok tt)
      end
    else (w, Ok tt).

Definition defaultStats : IndexedStats :=
  {| totalVolume := 0%float; mostActiveAsset := "XLM"; contractCalls := 0%float |}.

Definition number_or (x : option float) (d : float) : float :=
  match x with
  | Some v => if truthy_number v then v else d
  | None => d
  end.

Definition string_or (x : option string) (d : string) : string :=
  match x with
  | Some v => if String.eqb v "" then d else v
  | None => d
  end.

(** [fetchIndexedStats]: whatever goes wrong inside its [try] ends in the
    [catch], which warns and returns the defaults. *)
Definition fetchIndexedStats (env : Env) (accountAddress network period : string)
  : M IndexedStats :=
  fun w =>
    let failed_fetch := (console_log w, Ok defaultStats) in
    match encodeURIComponent env accountAddress with
    | None => failed_fetch
    | Some account =>
        let url := "/api/wrapped?accountId=" ++ account
                   ++ "&network=" ++ network ++ "&period=" ++ period in
        match fetch env url with
        | FetchRejects => failed_fetch
        | FetchResponds false _ _ => failed_fetch
        | FetchResponds true _ JsonRejects => failed_fetch
        | FetchResponds true _ JsonNull => failed_fetch
        | FetchResponds true _ (JsonValue data) =>
            (w, Ok {| totalVolume := number_or (data_totalVolume data) 0%float;
                      mostActiveAsset := string_or (data_mostActiveAsset data) "XLM";
                      contractCalls := number_or (data_contractCalls data) 0%float |})
        end
    end.

(** The observer [mintWrap] hands to the bridge. *)
Definition bridgedObserver (observer : option Observer) : Observer :=
  fun state data =>
    match observer with
    | Some obs => obs state data
    | None => ret tt
    end ;;
    if String.eqb state "pending" then lift (setTransactionState building)
    else if String.eqb state "simulating" then lift (setTransactionState simulating)
    else if String.eqb state "signed" then lift (setTransactionState signing)
    else if String.eqb state "submitted" then lift (setTransactionState submitting)
    else if String.eqb state "confirmed" then
      lift (setTransactionState confirmed) ;;
      match data with
      | DataObject fields =>
          match property "transactionHash" fields with
          | Some h => lift (setTransactionHash (Some h))
          | None => ret tt
          end
      | NoData => ret tt
      end
    else if String.eqb state "failed" then
      lift (setTransactionState failed) ;;
      match data with
      | DataObject fields =>
          match property "error" fields with
          | Some e => lift (setTransactionError (Some e))
          | None => ret tt
          end
      | NoData => ret tt
      end
    else ret tt.

(** Running the bridge against an observer. *)
Fixpoint run_bridge (b : Bridge) (obs : Observer) : M string :=
  match b with
  | BReturn h => ret h
  | BThrow e => throw e
  | BNotify state data k =>
      fun w => match obs state data w with
               | (w1, Ok _) => run_bridge (k None) obs w1
               | (w1, Throw e) => run_bridge (k (Some e)) obs w1
               end
  end.

Definition mintOptions (userAddress network : string) (finalStats : Stats)
  : MintWrapOptions :=
  {| accountAddress := userAddress;
     opt_network := network;
     opt_stats :=
       {| opt_totalVolume := stats_totalVolume finalStats;
          opt_mostActiveAsset := stats_mostActiveAsset finalStats;
          opt_contractCalls := stats_contractCalls finalStats;
          opt_timeframe := string_or (stats_timeframe finalStats) "all" |} |}.

(** [mintWrap], the [try] block up to the call of the bridge: the options
    the bridge is about to be called with. *)
Definition mintWrap_prepare (env : Env) (params : MintWrapParams)
  : M MintWrapOptions :=
  initWalletKit env ;;
  finalStats <- match stats params with
                | Some s => ret s
                | None =>
                    s <- fetchIndexedStats env (userAddress params)
                           (network params) "yearly" ;;
                    ret (as_Stats s)
                end ;;
  lift resetTransaction ;;
  lift (setTransactionState building) ;;
  ret (mintOptions (userAddress params) (network params) finalStats).

(** [mintWrap], the [try] block from the call of the bridge on. *)
Definition mintWrap_invoke (env : Env) (params : MintWrapParams)
    (options : MintWrapOptions) : M string :=
  transactionHash <- run_bridge (contractMintWrap env options)
                       (bridgedObserver (observer params)) ;;
  lift (setTransactionState confirmed) ;;
  lift (setTransactionHash (Some transactionHash)) ;;
  ret transactionHash.

Definition mintWrap_try (env : Env) (params : MintWrapParams) : M string :=
  options <- mintWrap_prepare env params ;;
  mintWrap_invoke env params options.

Definition unknown_error_message : string :=
  "Minting failed: Unknown error occurred".

Definition mintWrap_catch (error : Thrown) : M string :=
  match error with
  | ThrownError ContractConfigurationError _
  | ThrownError InvalidContractAddressError _
  | ThrownError ContractNotFoundError _
  | ThrownError ContractValidationError _ => throw error
  | ThrownError PlainError message =>
      lift (setTransactionState failed) ;;
      lift (setTransactionError (Some message)) ;;
      throw (ThrownError PlainError ("Minting failed: " ++ message))
  | ThrownValue _ =>
      lift (setTransactionState failed) ;;
      lift (setTransactionError (Some unknown_error_message)) ;;
      throw (ThrownError PlainError unknown_error_message)
  end.

Definition mintWrap (env : Env) (params : MintWrapParams) : M string :=
  try_catch (mintWrap_try env params) mintWrap_catch.

(* ================================================================== *)
(** ** app/utils/walletKit.ts, the revision built on [transactionObserver] *)

Module Observed.

Definition CONTRACT_ADDRESS (env : Env) : string :=
  string_or (NEXT_PUBLIC_CONTRACT_ADDRESS env)
    "CAAAAAAAAAAAAAAAAAAAAAAAAAAAAAAAAAAAAAAAAAAAAAAAAAAAAAAAA".

Definition invokeMintWrapContract (env : Env) (userAddress : string) : M string :=
  throw (ThrownError PlainError
    ("Contract integration pending. The mint_wrap function will be implemented by the contract engineer. "
     ++ "Contract address: " ++ CONTRACT_ADDRESS env ++ ", User: " ++ userAddress)).

Definition mintWrap_try (env : Env) (userAddress : string) : M string :=
  initWalletKit env ;;
  lift startTransaction ;;
  lift markSimulating ;;
  txHash <- invokeMintWrapContract env userAddress ;;
  ret txHash.

Definition mintWrap_catch (error : Thrown) : M string :=
  match error with
  | ThrownError _ message =>
      lift (markFailed (ErrObject message)) ;;
      throw (ThrownError PlainError ("Minting failed: " ++ message))
  | ThrownValue _ =>
      lift (markFailed (ErrObject unknown_error_message)) ;;
      throw (ThrownError PlainError unknown_error_message)
  end.

Definition mintWrap (env : Env) (userAddress : string) : M string :=
  try_catch (mintWrap_try env userAddress) mintWrap_catch.

End Observed.

(* ================================================================== *)
(** ** Statements of the specification *)


(** §4.3, step 3: the text of the timeout error for a budget of [ms]
    milliseconds; [digits] is the decimal numeral of [ms]. *)
Definition spec_timeout_message (digits : string) : string :=
  "confirmation timed out after " ++ digits ++ " ms".

(** §4.2: the tag the persisted sink shows after the bridge reports
    [state].  The bridge says "pending", "signed" and "submitted" where the
    store says building, signing and submitting. *)
Definition store_tag (state : string) : option TransactionState :=
  if String.eqb state "pending" then Some building
  else if String.eqb state "simulating" then Some simulating
  else if String.eqb state "signed" then Some signing
  else if String.eqb state "submitted" then Some submitting
  else if String.eqb state "confirmed" then Some confirmed
  else if String.eqb state "failed" then Some failed
  else None.

(** §8, sink isolation: whatever the caller's observer does, after a
    notification the persisted sink shows the tag the state stands for. *)
Definition sink_isolation (observer : Observer) : Prop :=
  forall state data w t,
    store_tag state = Some t ->
    transactionState
      (store (fst (bridgedObserver (Some observer) state data w))) = t.

(** §6: the persisted tag is [submitted] or [confirming] and a hash [h] is
    present. *)
Definition pending_with_hash (h : string) (w : World) : Prop :=
  (transactionState (store w) = submitted
   \/ transactionState (store w) = confirming)
  /\ transactionHash (store w) = Some h /\ h <> "".

(** A polling session for [h] attached to [w'] that was started in [w]:
    two timers nobody held before, the deadline a full budget away. *)
Definition fresh_session (h : string) (w w' : World) : Prop :=
  pollInterval w' = Some (next_timer w)
  /\ timeoutTimer w' = Some (S (next_timer w))
  /\ timers w' = [ mkTimer (next_timer w) (PollTick h) (now w + 3000);
                   mkTimer (S (next_timer w)) Deadline (now w + 60000) ]
  /\ next_timer w' = S (S (next_timer w))
  /\ transactionState (store w') = confirming
  /\ transactionHash (store w') = transactionHash (store w).

(** The stats source failed: the request was rejected or answered with a
    response that is not ok. *)
Definition fetch_failed (o : FetchOutcome) : bool :=
  match o with
  | FetchRejects => true
  | FetchResponds ok _ _ => negb ok
  end.

(** The four configuration and validation classes of [contractErrors]. *)
Definition is_configuration_error (e : Thrown) : bool :=
  match e with
  | ThrownError ContractConfigurationError _
  | ThrownError InvalidContractAddressError _
  | ThrownError ContractNotFoundError _
  | ThrownError ContractValidationError _ => true
  | _ => false
  end.

(** The observer holds the handle [id]. *)
Definition held (w : World) (id : nat) : bool :=
  match pollInterval w with Some i => Nat.eqb id i | None => false end
  || match timeoutTimer w with Some d => Nat.eqb id d | None => false end.

(** A weaker form of [timers_owned] that survives the moment in which the
    host has dropped the deadline timer and its callback has not yet run. *)
Definition timers_held (w : World) : Prop :=
  forall t, In t (timers w) -> held w (t_id t) = true.

(** The observer's timers all gone, the rest of the process untouched. *)
Definition cleared (w : World) : World :=
  with_timers [] (with_timeoutTimer None (with_pollInterval None w)).

(** A caller observer that throws on every call and does nothing else. *)
Definition throwing_observer : Observer :=
  fun _ _ => throw (ThrownError PlainError "observer failed").

(** The state of a polling session for [h] started at time [t0] with the
    handles [i] and [d], in a run where no status query found the
    transaction: still polling, or timed out. *)
Definition polling (s0 : Store) (t0 : Z) (i d : nat) (h : string) (w : World) : Prop :=
  store w = s0
  /\ pollInterval w = Some i /\ timeoutTimer w = Some d
  /\ exists di, timers w = [ mkTimer i (PollTick h) di;
                             mkTimer d Deadline (t0 + MAX_POLLING_DURATION) ].

Definition timed_out (s0 : Store) (t0 : Z) (w : World) : Prop :=
  store w = {| transactionState := failed;
               transactionHash := transactionHash s0;
               transactionError := Some timeout_message |}
  /\ pollInterval w = None /\ timeoutTimer w = None /\ timers w = []
  /\ t0 + MAX_POLLING_DURATION <= now w.

(** *** Sample collaborators

    A bridge that reports a list of notifications in order and returns
    [h], whether or not its observer throws; the one that reports the whole
    lifecycle; an environment around a given bridge whose
    stats source rejects, and the parameters of a mint without [stats]. *)
Fixpoint bridge_reports (ns : list (string * Payload)) (h : string) : Bridge :=
  match ns with
  | [] => BReturn h
  | (state, data) :: rest => BNotify state data (fun _ => bridge_reports rest h)
  end.

Definition bridge_confirms (h : string) : Bridge :=
  bridge_reports
    [ ("pending", NoData); ("simulating", NoData); ("signed", NoData);
      ("submitted", NoData);
      ("confirmed", DataObject [("transactionHash", h)]) ] h.



Definition env_with (bridge : Bridge) : Env :=
  {| hasWindow := true; kitInit := None;
     encodeURIComponent := fun s => Some s;
     fetch := fun _ => FetchRejects;
     contractMintWrap := fun _ => bridge;
     NEXT_PUBLIC_CONTRACT_ADDRESS := None |}.

Definition params_with (observer : option Observer) : MintWrapParams :=
  {| userAddress := "GABC"; network := "testnet"; stats := None;
     observer := observer |}.

(* ================================================================== *)
(** ** Further statements *)

(** The tags under which no confirmation is awaited: nothing has been
    submitted yet, or the outcome is known. *)
Definition settled (t : TransactionState) : bool :=
  match t with
  | idle | building | confirmed | failed => true
  | _ => false
  end.

(** An observer that leaves the process as it is, whatever it returns or
    throws. *)
Definition quiet (obs : Observer) : Prop :=
  forall state data w, fst (obs state data w) = w.

(** [w'] has the poller of [w]: the same handles, timers, queries and
    clock. *)
Definition same_poller (w w' : World) : Prop :=
  pollInterval w' = pollInterval w
  /\ timeoutTimer w' = timeoutTimer w
  /\ timers w' = timers w
  /\ next_timer w' = next_timer w
  /\ pending w' = pending w
  /\ queries w' = queries w
  /\ now w' = now w.

(** The period a timer was set with. *)
Definition period (k : TimerKind) : Z :=
  match k with
  | PollTick _ => POLLING_INTERVAL
  | Deadline => MAX_POLLING_DURATION
  end.

(** The hashes of [w] are known to [S]: the stored one, the one a session
    polls for, which is the stored one, and every one that was queried. *)
Definition hashes_known (S : string -> Prop) (w : World) : Prop :=
  (forall h, transactionHash (store w) = Some h -> S h)
  /\ (forall t h, In t (timers w) -> t_kind t = PollTick h ->
                  transactionHash (store w) = Some h)
  /\ (forall h, In h (queries w) -> S h).

(** The cadence of the poller: one status query per polling interval at
    most, the next tick not before its turn, and no timer due later than
    its period from now. *)
Definition cadence (w : World) : Prop :=
  POLLING_INTERVAL * Z.of_nat (length (queries w)) <= now w
  /\ (forall t, In t (timers w) ->
         (forall h, t_kind t = PollTick h ->
            POLLING_INTERVAL * (Z.of_nat (length (queries w)) + 1) <= t_due t)
         /\ t_due t <= now w + period (t_kind t)).

(** A computation that leaves the poller alone, from whatever state it is
    run. *)
Definition keeps_poller {A} (m : M A) : Prop :=
  forall w, same_poller w (fst (m w)).


(** The tags [mintWrap] of [walletKit.ts] and its [bridgedObserver] write. *)
Definition mint_tag (t : TransactionState) : bool :=
  match t with
  | building | simulating | signing | submitting | confirmed | failed => true
  | _ => false
  end.

Definition mint_patch (p : Patch) : bool :=
  match p with
  | PState t => mint_tag t
  | _ => true
  end.

(** A computation whose writes to the store are all of that kind. *)
Definition writes_mint_patches {A} (m : M A) : Prop :=
  forall w, exists ps,
    writes (fst (m w)) = (writes w ++ ps)%list
    /\ forallb mint_patch ps = true.

(** A computation that, started under one of those tags, ends under one. *)
Definition keeps_mint_tag {A} (m : M A) : Prop :=
  forall w, mint_tag (transactionState (store w)) = true ->
            mint_tag (transactionState (store (fst (m w)))) = true.

(* ================================================================== *)
(** ** Tactics *)

Ltac unfold_world :=
  unfold with_store, with_pollInterval, with_timeoutTimer, with_timers,
    with_next_timer, with_pending, with_queries, with_now, with_warnings,
    with_isInitialized, clearTimer, console_log in *.

Ltac clear_timers_cases w :=
  let Ei := fresh "Ei" in
  let Ed := fresh "Ed" in
  unfold clearTimers; destruct (pollInterval w) eqn:Ei; unfold_world; simpl;
  destruct (timeoutTimer w) eqn:Ed; simpl; rewrite ?Ei, ?Ed.


(* ================================================================== *)
(** ** Lists *)

Lemma filter_filter {A} (f g : A -> bool) (l : list A) :
  filter g (filter f l) = filter (fun x => f x && g x) l.
Proof.
  induction l as [|x l IH]; simpl; [reflexivity|].
  destruct (f x); simpl; [destruct (g x)|]; rewrite IH; reflexivity.
Qed.

Lemma filter_none {A} (f : A -> bool) (l : list A) :
  (forall x, In x l -> f x = false) -> filter f l = [].
Proof.
  induction l as [|x l IH]; simpl; intros H; [reflexivity|].
  rewrite (H x (or_introl eq_refl)). apply IH. intros y Hy. apply H. now right.
Qed.

Lemma filter_all {A} (f : A -> bool) (l : list A) :
  (forall x, In x l -> f x = true) -> filter f l = l.
Proof.
  induction l as [|x l IH]; simpl; intros H; [reflexivity|].
  rewrite (H x (or_introl eq_refl)). f_equal. apply IH. intros y Hy. apply H. now right.
Qed.

(* ================================================================== *)
(** ** The store and the timers *)

Lemma clearTimers_store (w : World) : store (clearTimers w) = store w.
Proof. clear_timers_cases w; reflexivity. Qed.

Lemma clearTimers_queries (w : World) : queries (clearTimers w) = queries w.
Proof. clear_timers_cases w; reflexivity. Qed.

Lemma clearTimers_timers (w : World) :
  timers (clearTimers w) = filter (fun t => negb (held w (t_id t))) (timers w).
Proof.
  unfold held. clear_timers_cases w.
  - rewrite filter_filter. apply filter_ext. intros t.
    now rewrite negb_orb.
  - apply filter_ext. intros t. now rewrite orb_false_r.
  - reflexivity.
  - symmetry. apply filter_all. reflexivity.
Qed.

Lemma clearTimers_eq (w : World) :
  clearTimers w =
  with_timers (filter (fun t => negb (held w (t_id t))) (timers w))
    (with_timeoutTimer None (with_pollInterval None w)).
Proof.
  rewrite <- clearTimers_timers.
  clear_timers_cases w; try reflexivity.
  all: destruct w; simpl in *; subst; reflexivity.
Qed.

Lemma clearTimers_owned (w : World) :
  timers_owned w -> clearTimers w = cleared w.
Proof.
  intros H. rewrite clearTimers_eq. unfold cleared. f_equal.
  apply filter_none. intros t Ht. unfold held.
  destruct H as [(_ & _ & E) | (i & d & h & di & dd & Ei & Ed & _ & E)].
  - rewrite E in Ht. destruct Ht.
  - rewrite Ei, Ed. rewrite E in Ht. simpl in Ht.
    destruct Ht as [<- | [<- | []]]; simpl.
    + now rewrite Nat.eqb_refl.
    + now rewrite Nat.eqb_refl, orb_true_r.
Qed.

Lemma timers_owned_held (w : World) : timers_owned w -> timers_held w.
Proof.
  intros [(_ & _ & E) | (i & d & h & di & dd & Ei & Ed & _ & E)] t Ht;
    rewrite E in Ht; simpl in Ht.
  - destruct Ht.
  - unfold held. rewrite Ei, Ed.
    destruct Ht as [<- | [<- | []]]; simpl.
    + now rewrite Nat.eqb_refl.
    + now rewrite Nat.eqb_refl, orb_true_r.
Qed.

Lemma clearTimers_held (w : World) :
  timers_held w -> clearTimers w = cleared w.
Proof.
  intros H. rewrite clearTimers_eq. unfold cleared. f_equal.
  apply filter_none. intros t Ht. now rewrite (H t Ht).
Qed.

Lemma timers_held_cleared (w : World) : timers_held (cleared w).
Proof. intros t []. Qed.

Lemma timers_held_clearTimer (id : nat) (w : World) :
  timers_held w -> timers_held (clearTimer id w).
Proof.
  intros H t Ht. unfold clearTimer in Ht. simpl in Ht.
  apply filter_In in Ht. destruct Ht as [Ht _]. exact (H t Ht).
Qed.

(** Ownership only looks at the two handles and the timers. *)
Lemma timers_owned_frame (w w' : World) :
  pollInterval w' = pollInterval w ->
  timeoutTimer w' = timeoutTimer w ->
  timers w' = timers w ->
  timers_owned w -> timers_owned w'.
Proof.
  unfold timers_owned. intros -> -> ->. exact (fun H => H).
Qed.

Lemma markFailed_owned (error : ErrorArg) (w : World) :
  timers_held w ->
  markFailed error w =
  setState failed
    (setTransactionError
       (Some match error with ErrObject m => m | ErrString s => s end)
       (cleared w)).
Proof.
  intros H. unfold markFailed. now rewrite (clearTimers_held w H).
Qed.

Lemma onDeadline_owned (w : World) :
  timers_held w ->
  onDeadline w =
  setState failed (setTransactionError (Some timeout_message) (cleared w)).
Proof.
  intros H. unfold onDeadline.
  rewrite (clearTimers_held w H).
  rewrite (markFailed_owned _ _ (timers_held_cleared w)).
  reflexivity.
Qed.

Lemma checkTransactionStatus_resume_owned (r : Response) (w : World) :
  timers_held w ->
  checkTransactionStatus_resume r w =
  match r with
  | RStatus SUCCESS => setState confirmed (cleared w)
  | RStatus FAILED =>
      setState failed
        (setTransactionError (Some "Transaction failed on the ledger.") (cleared w))
  | _ => w
  end.
Proof.
  intros H. destruct r as [|[| |]]; simpl; try reflexivity.
  - now rewrite (clearTimers_held w H).
  - rewrite (clearTimers_held w H).
    now rewrite (markFailed_owned _ _ (timers_held_cleared w)).
Qed.

Lemma startPolling_owned (txHash : string) (w : World) :
  timers_held w ->
  startPolling txHash w =
  with_timeoutTimer (Some (S (next_timer w)))
    (with_next_timer (S (S (next_timer w)))
       (with_timers
          [ mkTimer (next_timer w) (PollTick txHash) (now w + POLLING_INTERVAL);
            mkTimer (S (next_timer w)) Deadline (now w + MAX_POLLING_DURATION) ]
          (with_pollInterval (Some (next_timer w))
             (setState confirming w)))).
Proof.
  intros H. unfold startPolling.
  rewrite (clearTimers_held (setState confirming w)) by exact H.
  reflexivity.
Qed.

(** *** Running a timer *)

Section TwoTimers.
Variables (w : World) (i d : nat) (h : string) (di dd : Z).
Hypothesis distinct : i <> d.
Hypothesis shape :
  timers w = [mkTimer i (PollTick h) di; mkTimer d Deadline dd].

Lemma find_interval : find_timer i w = Some (mkTimer i (PollTick h) di).
Proof. unfold find_timer. rewrite shape. simpl. now rewrite Nat.eqb_refl. Qed.

Lemma find_deadline : find_timer d w = Some (mkTimer d Deadline dd).
Proof.
  unfold find_timer. rewrite shape. simpl.
  destruct (Nat.eqb_spec i d) as [E|_]; [contradiction|].
  now rewrite Nat.eqb_refl.
Qed.

Lemma find_other (id : nat) : id <> i -> id <> d -> find_timer id w = None.
Proof.
  intros Hi Hd. unfold find_timer. rewrite shape. simpl.
  destruct (Nat.eqb_spec i id) as [E|_]; [now subst|].
  destruct (Nat.eqb_spec d id) as [E|_]; [now subst|]. reflexivity.
Qed.

Lemma fireTimer_tick :
  di <= now w ->
  fireTimer i w =
  checkTransactionStatus h
    (with_timers [ mkTimer i (PollTick h) (now w + POLLING_INTERVAL);
                   mkTimer d Deadline dd ] w).
Proof.
  intros Hdue. unfold fireTimer. rewrite find_interval. simpl.
  destruct (Z.leb_spec di (now w)) as [_|]; [|lia].
  unfold rearm. rewrite shape. simpl. rewrite Nat.eqb_refl.
  destruct (Nat.eqb_spec d i) as [E|_]; [now subst|]. reflexivity.
Qed.

Lemma fireTimer_tick_early : now w < di -> fireTimer i w = w.
Proof.
  intros Hdue. unfold fireTimer. rewrite find_interval. simpl.
  destruct (Z.leb_spec di (now w)) as [|_]; [lia|]. reflexivity.
Qed.

Lemma fireTimer_deadline :
  pollInterval w = Some i -> timeoutTimer w = Some d ->
  dd <= now w ->
  fireTimer d w =
  setState failed (setTransactionError (Some timeout_message) (cleared w)).
Proof.
  intros Ei Ed Hdue. unfold fireTimer. rewrite find_deadline. simpl.
  destruct (Z.leb_spec dd (now w)) as [_|]; [|lia].
  rewrite onDeadline_owned.
  - reflexivity.
  - apply timers_held_clearTimer, timers_owned_held.
    right. exists i, d, h, di, dd. auto.
Qed.

Lemma fireTimer_deadline_early : now w < dd -> fireTimer d w = w.
Proof.
  intros Hdue. unfold fireTimer. rewrite find_deadline. simpl.
  destruct (Z.leb_spec dd (now w)) as [|_]; [lia|]. reflexivity.
Qed.

Lemma fireTimer_other (id : nat) : id <> i -> id <> d -> fireTimer id w = w.
Proof.
  intros Hi Hd. unfold fireTimer. now rewrite find_other.
Qed.
End TwoTimers.

Lemma fireTimer_none (id : nat) (w : World) : timers w = [] -> fireTimer id w = w.
Proof. intros E. unfold fireTimer, find_timer. now rewrite E. Qed.

Lemma resume_frame (q : nat) (k : World -> World) (w : World) :
  resume q k w = w
  \/ resume q k w =
     k (with_pending (filter (fun p => negb (Nat.eqb (fst p) q)) (pending w)) w).
Proof. unfold resume. destruct (is_pending q w); auto. Qed.

(** *** At most one polling session *)

Lemma timers_owned_two (w : World) (i d : nat) (h : string) (di dd : Z) :
  pollInterval w = Some i -> timeoutTimer w = Some d -> i <> d ->
  timers w = [mkTimer i (PollTick h) di; mkTimer d Deadline dd] ->
  timers_owned w.
Proof. intros. right. exists i, d, h, di, dd. auto. Qed.

Lemma startPolling_timers_owned (txHash : string) (w : World) :
  timers_held w -> timers_owned (startPolling txHash w).
Proof.
  intros H. rewrite (startPolling_owned _ _ H).
  eapply timers_owned_two; simpl; try reflexivity. lia.
Qed.

Lemma fireTimer_timers_owned (id : nat) (w : World) :
  timers_owned w -> timers_owned (fireTimer id w).
Proof.
  intros H.
  destruct H as [(Ei & Ed & E) | (i & d & h & di & dd & Ei & Ed & Hid & E)] eqn:EH.
  - rewrite (fireTimer_none id w E). clear EH. left; auto.
  - clear EH.
    destruct (Nat.eq_dec id i) as [->|Hi].
    + destruct (Z_le_gt_dec di (now w)) as [Hdue|Hdue].
      * rewrite (fireTimer_tick w i d h di dd Hid E Hdue).
        eapply timers_owned_two; simpl; eauto.
      * rewrite (fireTimer_tick_early w i d h di dd Hid E) by lia.
        eapply timers_owned_two; eauto.
    + destruct (Nat.eq_dec id d) as [->|Hd].
      * destruct (Z_le_gt_dec dd (now w)) as [Hdue|Hdue].
        -- rewrite (fireTimer_deadline w i d h di dd Hid E Ei Ed Hdue).
           left. repeat split.
        -- rewrite (fireTimer_deadline_early w i d h di dd Hid E) by lia.
           eapply timers_owned_two; eauto.
      * rewrite (fireTimer_other w i d h di dd Hid E id Hi Hd).
        eapply timers_owned_two; eauto.
Qed.

Lemma step_timers_owned (e : Event) (w : World) :
  timers_owned w -> timers_owned (step e w).
Proof.
  intros H. pose proof (timers_owned_held w H) as Hh.
  destruct e; simpl.
  - unfold startTransaction, resetState.
    rewrite (clearTimers_held w Hh). left. repeat split.
  - exact H.
  - exact H.
  - exact H.
  - exact H.
  - exact H.
  - unfold markSubmitted. apply startPolling_timers_owned. exact Hh.
  - rewrite (markFailed_owned _ _ Hh). left. repeat split.
  - unfold resetState. rewrite (clearTimers_held w Hh). left. repeat split.
  - unfold resumeIfPending.
    destruct (_ && _); [|exact H].
    destruct (transactionHash (store w)); [|exact H].
    apply startPolling_timers_owned. exact Hh.
  - destruct (0 <=? dt); exact H.
  - apply fireTimer_timers_owned. exact H.
  - destruct (resume_frame q (checkTransactionStatus_resume r) w) as [-> | ->]; [exact H|].
    rewrite checkTransactionStatus_resume_owned by exact Hh.
    destruct r as [|[| |]]; try exact H; left; repeat split.
  - destruct (resume_frame q checkTransactionStatus_catch w) as [-> | ->]; exact H.
Qed.

Lemma exec_cons (e : Event) (es : list Event) (w : World) :
  exec (e :: es) w = exec es (step e w).
Proof. reflexivity. Qed.

Lemma exec_timers_owned (es : list Event) (w : World) :
  timers_owned w -> timers_owned (exec es w).
Proof.
  revert w. induction es as [|e es IH]; intros w H; [exact H|].
  rewrite exec_cons. apply IH, step_timers_owned, H.
Qed.

Lemma initial_timers_owned : timers_owned initialWorld.
Proof. left. repeat split. Qed.

Lemma reachable_timers_owned (w : World) : reachable w -> timers_owned w.
Proof.
  intros [es ->]. apply exec_timers_owned, initial_timers_owned.
Qed.

(** *** With no timer set, the environment asks nothing *)

Lemma step_no_timers (e : Event) (w : World) :
  is_environment e = true -> timers w = [] ->
  timers (step e w) = [] /\ queries (step e w) = queries w.
Proof.
  intros He E. destruct e; try discriminate He; simpl.
  - destruct (0 <=? dt); auto.
  - rewrite (fireTimer_none id w E). auto.
  - destruct (resume_frame q (checkTransactionStatus_resume r) w) as [-> | ->]; [auto|].
    destruct r as [|[| |]]; simpl; auto.
    + rewrite clearTimers_timers, clearTimers_queries. simpl. rewrite E. auto.
    + unfold markFailed. simpl.
      rewrite !clearTimers_timers, !clearTimers_queries. simpl. rewrite E. auto.
  - destruct (resume_frame q checkTransactionStatus_catch w) as [-> | ->]; auto.
Qed.

Lemma exec_no_timers (es : list Event) (w : World) :
  forallb is_environment es = true -> timers w = [] ->
  timers (exec es w) = [] /\ queries (exec es w) = queries w.
Proof.
  revert w. induction es as [|e es IH]; intros w Hes E; [auto|].
  simpl in Hes. apply andb_true_iff in Hes. destruct Hes as [He Hes].
  rewrite exec_cons.
  destruct (step_no_timers e w He E) as [E1 Q1].
  destruct (IH (step e w) Hes E1) as [E2 Q2].
  split; [exact E2 | now rewrite Q2].
Qed.

(** With no timer set, clock and timer events leave all but the clock as
    it is. *)
Lemma step_timer_event_idle (e : Event) (w : World) :
  is_timer_event e = true -> timers w = [] ->
  exists t, step e w = with_now t w.
Proof.
  intros He E. destruct e; try discriminate He; simpl.
  - destruct (0 <=? dt); [now eexists|].
    exists (now w). now destruct w.
  - rewrite (fireTimer_none id w E). exists (now w). now destruct w.
Qed.

Lemma exec_timer_events_idle (es : list Event) (w : World) :
  forallb is_timer_event es = true -> timers w = [] ->
  exists t, exec es w = with_now t w.
Proof.
  revert w. induction es as [|e es IH]; intros w Hes E.
  - exists (now w). now destruct w.
  - simpl in Hes. apply andb_true_iff in Hes. destruct Hes as [He Hes].
    rewrite exec_cons.
    destruct (step_timer_event_idle e w He E) as [t ->].
    destruct (IH (with_now t w) Hes E) as [t' ->].
    now exists t'.
Qed.

(** *** A polling session that never finds the transaction *)

Section NotFoundRun.
Variables (s0 : Store) (t0 : Z) (i d : nat) (h : string).
Hypothesis distinct : i <> d.

Let session (w : World) : Prop :=
  polling s0 t0 i d h w \/ timed_out s0 t0 w.

Lemma polling_frame (w w' : World) :
  store w' = store w -> pollInterval w' = pollInterval w ->
  timeoutTimer w' = timeoutTimer w -> timers w' = timers w ->
  polling s0 t0 i d h w -> polling s0 t0 i d h w'.
Proof. unfold polling. intros -> -> -> ->. exact (fun H => H). Qed.

Lemma timed_out_later (w w' : World) :
  store w' = store w -> pollInterval w' = pollInterval w ->
  timeoutTimer w' = timeoutTimer w -> timers w' = timers w ->
  now w <= now w' ->
  timed_out s0 t0 w -> timed_out s0 t0 w'.
Proof.
  unfold timed_out. intros -> -> -> -> Hnow (? & ? & ? & ? & ?).
  repeat split; auto. lia.
Qed.

Lemma polling_fireTimer (id : nat) (w : World) :
  polling s0 t0 i d h w -> session (fireTimer id w).
Proof.
  intros (Es & Ei & Ed & di & E).
  destruct (Nat.eq_dec id i) as [->|Hi].
  - left. destruct (Z_le_gt_dec di (now w)) as [Hdue|Hdue].
    + rewrite (fireTimer_tick w i d h di _ distinct E Hdue).
      repeat split; simpl; eauto.
    + rewrite (fireTimer_tick_early w i d h di _ distinct E) by lia.
      repeat split; eauto.
  - destruct (Nat.eq_dec id d) as [->|Hd].
    + destruct (Z_le_gt_dec (t0 + MAX_POLLING_DURATION) (now w)) as [Hdue|Hdue].
      * right.
        rewrite (fireTimer_deadline w i d h di _ distinct E Ei Ed Hdue).
        repeat split; simpl; auto. now rewrite Es.
      * left.
        rewrite (fireTimer_deadline_early w i d h di _ distinct E) by lia.
        repeat split; eauto.
    + left. rewrite (fireTimer_other w i d h di _ distinct E id Hi Hd).
      repeat split; eauto.
Qed.

Lemma session_step (e : Event) (w : World) :
  is_not_found_run e = true -> session w -> session (step e w).
Proof.
  intros He H. destruct e; try discriminate He; simpl.
  - destruct (Z.leb_spec 0 dt) as [Hdt|_]; [|exact H].
    destruct H as [H|H].
    + left. revert H. now apply polling_frame.
    + right. revert H. apply timed_out_later; simpl; auto; lia.
  - destruct H as [H|H].
    + now apply polling_fireTimer.
    + right. destruct H as (? & ? & ? & E & ?).
      rewrite (fireTimer_none id w E). repeat split; auto.
  - destruct r as [|[| |]]; try discriminate He.
    destruct (resume_frame q (checkTransactionStatus_resume (RStatus NOT_FOUND)) w) as [-> | ->];
      [exact H|]. simpl.
    destruct H as [H|H].
    + left. revert H. now apply polling_frame.
    + right. revert H. apply timed_out_later; simpl; auto; lia.
Qed.

Lemma session_exec (es : list Event) (w : World) :
  forallb is_not_found_run es = true -> session w -> session (exec es w).
Proof.
  revert w. induction es as [|e es IH]; intros w Hes H; [exact H|].
  simpl in Hes. apply andb_true_iff in Hes. destruct Hes as [He Hes].
  rewrite exec_cons. apply IH; [exact Hes|]. now apply session_step.
Qed.
End NotFoundRun.

Lemma markSubmitted_owned (txHash : string) (w : World) :
  timers_owned w ->
  markSubmitted txHash w =
  with_timeoutTimer (Some (S (next_timer w)))
    (with_next_timer (S (S (next_timer w)))
       (with_timers
          [ mkTimer (next_timer w) (PollTick txHash) (now w + POLLING_INTERVAL);
            mkTimer (S (next_timer w)) Deadline (now w + MAX_POLLING_DURATION) ]
          (with_pollInterval (Some (next_timer w))
             (setState confirming
                (setState submitted (setTransactionHash (Some txHash) w)))))).
Proof.
  intros H. unfold markSubmitted.
  rewrite startPolling_owned; [reflexivity|].
  exact (timers_owned_held w H).
Qed.

Lemma markSubmitted_polling (txHash : string) (w : World) :
  timers_owned w ->
  polling {| transactionState := confirming;
             transactionHash := Some txHash;
             transactionError := transactionError (store w) |}
    (now w) (next_timer w) (S (next_timer w)) txHash (markSubmitted txHash w).
Proof.
  intros H. rewrite (markSubmitted_owned _ _ H).
  repeat split. eexists. reflexivity.
Qed.

(* ================================================================== *)
(** ** The confirmation poller *)

(** C3, as the specification words it, fails: the deadline callback
    records the fixed text of [timeout_message], not a message built from
    the duration in milliseconds. *)
Lemma timeout_message_is_fixed_text :
  let w := exec [CallMarkSubmitted "h1"; Advance 60000; TimerFire 1] initialWorld in
  transactionState (store w) = failed
  /\ transactionError (store w)
     = Some "Transaction confirmation timed out after 60 seconds."
  /\ transactionError (store w) <> Some (spec_timeout_message "60000")
  /\ (forall digits,
        transactionError (store w) <> Some (spec_timeout_message digits)).
Proof.
  refine (conj eq_refl (conj eq_refl (conj _ _))).
  - vm_compute. discriminate.
  - intros digits. vm_compute. discriminate.
Qed.

(** C3 (amended).  Take a polling session started by [markSubmitted] at
    time [now w0], followed by a run [es1] of the environment in which
    every status query answers [NOT_FOUND].  The tag is [confirming] until
    the deadline callback has run, which never happens before 60000 ms have
    passed; [failed] comes with the text "Transaction confirmation timed
    out after 60 seconds.".  Once 60000 ms have passed and the host has
    given the deadline timer its turn, the store is [failed] with that text
    and the submitted hash, no timer is left, and no later event of the
    environment [es2] issues another status query. *)
Theorem timeout_poll (w0 : World) (h : string) (es1 es2 : list Event) :
  timers_owned w0 ->
  forallb is_not_found_run es1 = true ->
  forallb is_environment es2 = true ->
  let w1 := exec es1 (markSubmitted h w0) in
  let w2 := step (TimerFire (S (next_timer w0))) w1 in
  (transactionState (store w1) = confirming
   \/ transactionState (store w1) = failed)
  /\ (transactionState (store w1) = failed ->
      now w0 + 60000 <= now w1
      /\ transactionError (store w1) = Some timeout_message)
  /\ (now w0 + 60000 <= now w1 ->
      store w2 = {| transactionState := failed;
                    transactionHash := Some h;
                    transactionError :=
                      Some "Transaction confirmation timed out after 60 seconds." |}
      /\ timers w2 = []
      /\ queries (exec es2 w2) = queries w2).
Proof.
  intros Hown Hes1 Hes2 w1 w2.
  assert (Hd : next_timer w0 <> S (next_timer w0)) by lia.
  pose proof (session_exec _ _ _ _ _ Hd es1 _ Hes1
                (or_introl (markSubmitted_polling h w0 Hown))) as Hs.
  fold w1 in Hs.
  split; [|split].
  - destruct Hs as [(Es & _) | (Es & _)]; rewrite Es; simpl; auto.
  - intros Hf. destruct Hs as [(Es & _) | (Es & _ & _ & _ & Hnow)].
    + rewrite Es in Hf. discriminate Hf.
    + rewrite Es. simpl. split; [exact Hnow | reflexivity].
  - intros Hnow.
    assert (Ht : timed_out
                   {| transactionState := confirming;
                      transactionHash := Some h;
                      transactionError := transactionError (store w0) |}
                   (now w0) w2).
    { pose proof (session_step _ (now w0) _ _ h Hd
                    (TimerFire (S (next_timer w0))) w1 eq_refl Hs) as Hs2.
      fold w2 in Hs2.
      destruct Hs as [(Es & Ei & Ed & di & E) | Hto].
      - unfold w2. simpl.
        rewrite (fireTimer_deadline w1 _ _ h di _ Hd E Ei Ed Hnow).
        repeat split; simpl; auto. now rewrite Es.
      - destruct Hs2 as [(Es2 & _) | Hto2]; [|exact Hto2].
        exfalso. destruct Hto as (Es & _ & _ & E & _).
        unfold w2 in Es2. simpl in Es2.
        rewrite (fireTimer_none _ w1 E), Es in Es2. discriminate Es2. }
    destruct Ht as (Es & _ & _ & E & _).
    split; [exact Es | split; [exact E|]].
    exact (proj2 (exec_no_timers es2 w2 Hes2 E)).
Qed.

Lemma timeout_poll_witness :
  let w1 := exec [Advance 3000; TimerFire 0; QueryReturn 0 (RStatus NOT_FOUND);
                  Advance 57000]
              (markSubmitted "h1" initialWorld) in
  let w2 := step (TimerFire 1) w1 in
  (transactionState (store w1) = confirming
   \/ transactionState (store w1) = failed)
  /\ (transactionState (store w1) = failed ->
      0 + 60000 <= now w1
      /\ transactionError (store w1) = Some timeout_message)
  /\ (0 + 60000 <= now w1 ->
      store w2 = {| transactionState := failed;
                    transactionHash := Some "h1";
                    transactionError :=
                      Some "Transaction confirmation timed out after 60 seconds." |}
      /\ timers w2 = []
      /\ queries (exec [Advance 3000; TimerFire 0; TimerFire 1;
                        QueryReturn 0 (RStatus SUCCESS)] w2)
         = queries w2).
Proof.
  exact (timeout_poll initialWorld "h1"
           [Advance 3000; TimerFire 0; QueryReturn 0 (RStatus NOT_FOUND);
            Advance 57000]
           [Advance 3000; TimerFire 0; TimerFire 1;
            QueryReturn 0 (RStatus SUCCESS)]
           initial_timers_owned eq_refl eq_refl).
Defined.

(** *** A status query that answers

    X4.  The answer [SUCCESS] to a status query in flight ends the
    session: the tag becomes [confirmed] with the hash and the message as
    they were, both timers are cleared, and no event of the environment
    issues another status query. *)
Theorem success_answer_confirms (w : World) (q : nat) (es : list Event) :
  timers_owned w ->
  is_pending q w = true ->
  forallb is_environment es = true ->
  let w' := step (QueryReturn q (RStatus SUCCESS)) w in
  store w' = {| transactionState := confirmed;
                transactionHash := transactionHash (store w);
                transactionError := transactionError (store w) |}
  /\ timers w' = [] /\ pollInterval w' = None /\ timeoutTimer w' = None
  /\ queries (exec es w') = queries w.
Proof.
  intros Hown Hp Hes w'.
  assert (E : w' = setState confirmed
                     (cleared (with_pending
                        (filter (fun p => negb (Nat.eqb (fst p) q)) (pending w)) w))).
  { unfold w'. simpl. unfold resume. rewrite Hp.
    rewrite checkTransactionStatus_resume_owned; [reflexivity|].
    exact (timers_owned_held w Hown). }
  assert (Et : timers w' = []) by now rewrite E.
  refine (conj _ (conj Et (conj _ (conj _ _)))); try now rewrite E.
  rewrite (proj2 (exec_no_timers es w' Hes Et)). now rewrite E.
Qed.

Lemma success_answer_confirms_witness :
  let w := exec [CallMarkSubmitted "h1";
                 Advance 3000; TimerFire 0; QueryReturn 0 (RStatus NOT_FOUND);
                 Advance 3000; TimerFire 0; QueryReturn 1 (RStatus NOT_FOUND);
                 Advance 3000; TimerFire 0] initialWorld in
  let w' := step (QueryReturn 2 (RStatus SUCCESS)) w in
  is_pending 2 w = true
  /\ store w' = {| transactionState := confirmed;
                   transactionHash := Some "h1";
                   transactionError := None |}
  /\ now w' = 9000
  /\ queries (exec [Advance 60000; TimerFire 0; TimerFire 1] w')
     = ["h1"; "h1"; "h1"].
Proof.
  pose proof (success_answer_confirms
                (exec [CallMarkSubmitted "h1";
                       Advance 3000; TimerFire 0; QueryReturn 0 (RStatus NOT_FOUND);
                       Advance 3000; TimerFire 0; QueryReturn 1 (RStatus NOT_FOUND);
                       Advance 3000; TimerFire 0] initialWorld)
                2 [Advance 60000; TimerFire 0; TimerFire 1]
                (exec_timers_owned _ _ initial_timers_owned) eq_refl eq_refl) as H.
  cbv zeta in H. destruct H as (Hs & _ & _ & _ & Hq).
  exact (conj eq_refl (conj Hs (conj eq_refl Hq))).
Defined.

(** X5.  The answer [FAILED] to a status query in flight ends the session
    too: the tag becomes [failed] with the message "Transaction failed on
    the ledger.", the hash stays, both timers are cleared, and no event of
    the environment issues another status query. *)
Theorem failed_answer_fails (w : World) (q : nat) (es : list Event) :
  timers_owned w ->
  is_pending q w = true ->
  forallb is_environment es = true ->
  let w' := step (QueryReturn q (RStatus FAILED)) w in
  store w' = {| transactionState := failed;
                transactionHash := transactionHash (store w);
                transactionError := Some "Transaction failed on the ledger." |}
  /\ timers w' = [] /\ pollInterval w' = None /\ timeoutTimer w' = None
  /\ queries (exec es w') = queries w.
Proof.
  intros Hown Hp Hes w'.
  assert (E : w' = setState failed
                     (setTransactionError
                        (Some "Transaction failed on the ledger.")
                        (cleared (with_pending
                           (filter (fun p => negb (Nat.eqb (fst p) q)) (pending w))
                           w)))).
  { unfold w'. simpl. unfold resume. rewrite Hp.
    rewrite checkTransactionStatus_resume_owned; [reflexivity|].
    exact (timers_owned_held w Hown). }
  assert (Et : timers w' = []) by now rewrite E.
  refine (conj _ (conj Et (conj _ (conj _ _)))); try now rewrite E.
  rewrite (proj2 (exec_no_timers es w' Hes Et)). now rewrite E.
Qed.

Lemma failed_answer_fails_witness :
  let w := exec [CallMarkSubmitted "h1"; Advance 3000; TimerFire 0]
             initialWorld in
  let w' := step (QueryReturn 0 (RStatus FAILED)) w in
  is_pending 0 w = true
  /\ store w' = {| transactionState := failed;
                   transactionHash := Some "h1";
                   transactionError := Some "Transaction failed on the ledger." |}
  /\ queries (exec [Advance 60000; TimerFire 0; TimerFire 1] w') = ["h1"].
Proof.
  pose proof (failed_answer_fails
                (exec [CallMarkSubmitted "h1"; Advance 3000; TimerFire 0]
                   initialWorld)
                0 [Advance 60000; TimerFire 0; TimerFire 1]
                (exec_timers_owned _ _ initial_timers_owned) eq_refl eq_refl) as H.
  cbv zeta in H. destruct H as (Hs & _ & _ & _ & Hq).
  exact (conj eq_refl (conj Hs Hq)).
Defined.

(** *** A status query that throws *)

Lemma find_rearm_same (i : nat) (due : Z) (l : list Timer) (t : Timer) :
  find (fun t => Nat.eqb (t_id t) i) l = Some t ->
  find (fun t => Nat.eqb (t_id t) i)
       (map (fun t => if Nat.eqb (t_id t) i then mkTimer i (t_kind t) due else t) l)
  = Some (mkTimer i (t_kind t) due).
Proof.
  induction l as [|x l IH]; simpl; [discriminate|].
  destruct (Nat.eqb (t_id x) i) eqn:Ex; simpl.
  - intros [= ->]. now rewrite Nat.eqb_refl.
  - rewrite Ex. exact IH.
Qed.

Lemma find_rearm_other (i d : nat) (due : Z) (l : list Timer) :
  d <> i ->
  find (fun t => Nat.eqb (t_id t) d)
       (map (fun t => if Nat.eqb (t_id t) i then mkTimer i (t_kind t) due else t) l)
  = find (fun t => Nat.eqb (t_id t) d) l.
Proof.
  intros Hd. induction l as [|x l IH]; simpl; [reflexivity|].
  destruct (Nat.eqb_spec (t_id x) i) as [Ex|Ex]; simpl.
  - destruct (Nat.eqb_spec i d) as [E|_]; [now subst|].
    destruct (Nat.eqb_spec (t_id x) d) as [E|_]; [congruence|]. exact IH.
  - now rewrite IH.
Qed.

(** Whatever the process is doing, a failed status query changes neither
    the store nor the timers; it is logged and forgotten. *)
Lemma query_error_frame (q : nat) (w : World) :
  store (step (QueryThrow q) w) = store w
  /\ writes (step (QueryThrow q) w) = writes w
  /\ timers (step (QueryThrow q) w) = timers w
  /\ pollInterval (step (QueryThrow q) w) = pollInterval w
  /\ timeoutTimer (step (QueryThrow q) w) = timeoutTimer w
  /\ queries (step (QueryThrow q) w) = queries w
  /\ now (step (QueryThrow q) w) = now w.
Proof.
  simpl. destruct (resume_frame q checkTransactionStatus_catch w) as [-> | ->];
    repeat split; reflexivity.
Qed.

(** C5.  A tick of a polling session whose status query throws: the query
    was issued, and after the error the store (tag, hash and message alike)
    and the list of its notifications are what they were before the tick,
    so the tag has not become [failed]; the observer still holds both
    handles, the deadline and every other timer are untouched, the interval
    timer is armed for 3000 ms later, and when that time has come the next
    tick issues the query again. *)
Theorem transient_query_error_is_ignored
    (w : World) (i : nat) (h : string) (due : Z) :
  find_timer i w = Some (mkTimer i (PollTick h) due) ->
  due <= now w ->
  let q := length (queries w) in
  let w1 := step (TimerFire i) w in
  let w2 := step (QueryThrow q) w1 in
  queries w1 = (queries w ++ [h])%list
  /\ is_pending q w1 = true
  /\ store w2 = store w
  /\ writes w2 = writes w
  /\ pollInterval w2 = pollInterval w
  /\ timeoutTimer w2 = timeoutTimer w
  /\ find_timer i w2 = Some (mkTimer i (PollTick h) (now w + 3000))
  /\ (forall d, d <> i -> find_timer d w2 = find_timer d w)
  /\ queries (step (TimerFire i) (step (Advance 3000) w2))
     = (queries w ++ [h; h])%list.
Proof.
  intros Hfind Hdue q w1 w2.
  assert (E1 : w1 = checkTransactionStatus h
                    (rearm i (now w + POLLING_INTERVAL) w)).
  { unfold w1. simpl. unfold fireTimer. rewrite Hfind. simpl.
    destruct (Z.leb_spec due (now w)); [reflexivity | lia]. }
  assert (Hp : is_pending q w1 = true).
  { rewrite E1. unfold is_pending, checkTransactionStatus. simpl.
    rewrite existsb_app. simpl. fold q. now rewrite Nat.eqb_refl, orb_true_r. }
  assert (E2 : w2 =
               checkTransactionStatus_catch
                 (with_pending
                    (filter (fun p => negb (Nat.eqb (fst p) q)) (pending w1)) w1)).
  { unfold w2. simpl. unfold resume. now rewrite Hp. }
  assert (Hf : find_timer i w2 = Some (mkTimer i (PollTick h) (now w + 3000))).
  { rewrite E2, E1. unfold find_timer. simpl.
    exact (find_rearm_same i _ (timers w) _ Hfind). }
  repeat split.
  - now rewrite E1.
  - exact Hp.
  - now rewrite E2, E1.
  - now rewrite E2, E1.
  - now rewrite E2, E1.
  - now rewrite E2, E1.
  - exact Hf.
  - intros d Hd. rewrite E2, E1. unfold find_timer. simpl.
    now apply find_rearm_other.
  - simpl. unfold fireTimer at 1.
    change (find_timer i (with_now (now w2 + 3000) w2)) with (find_timer i w2).
    rewrite Hf. simpl.
    assert (En : now w2 = now w) by now rewrite E2, E1.
    rewrite En. rewrite Z.leb_refl. simpl.
    assert (Eq : queries w2 = (queries w ++ [h])%list) by now rewrite E2, E1.
    rewrite Eq, <- app_assoc. reflexivity.
Qed.

Lemma transient_query_error_is_ignored_witness :
  let w := exec [CallMarkSubmitted "h1"; Advance 3000] initialWorld in
  let w1 := step (TimerFire 0) w in
  let w2 := step (QueryThrow 0) w1 in
  find_timer 0 w = Some (mkTimer 0 (PollTick "h1") 3000)
  /\ 3000 <= now w
  /\ queries w1 = ["h1"]
  /\ store w2 = {| transactionState := confirming;
                   transactionHash := Some "h1";
                   transactionError := None |}
  /\ find_timer 0 w2 = Some (mkTimer 0 (PollTick "h1") 6000)
  /\ find_timer 1 w2 = Some (mkTimer 1 Deadline 60000)
  /\ queries (step (TimerFire 0) (step (Advance 3000) w2)) = ["h1"; "h1"].
Proof.
  pose proof (transient_query_error_is_ignored
                (exec [CallMarkSubmitted "h1"; Advance 3000] initialWorld)
                0 "h1" 3000 eq_refl ltac:(vm_compute; discriminate)) as H.
  cbv zeta in H.
  destruct H as (H1 & _ & H2 & _ & _ & _ & H3 & H4 & H5).
  refine (conj eq_refl (conj _ (conj H1 (conj H2 (conj H3 (conj _ H5)))))).
  - vm_compute. discriminate.
  - exact (H4 1%nat ltac:(discriminate)).
Defined.

(** *** Resuming after a reload *)

Lemma TransactionState_eqb_eq (a b : TransactionState) :
  TransactionState_eqb a b = true <-> a = b.
Proof.
  split; [|intros ->; destruct b; reflexivity].
  destruct a, b; simpl; intros H; try reflexivity; discriminate H.
Qed.

(** The condition [resumeIfPending] tests says what §6 says. *)
Lemma resume_condition (w : World) :
  (TransactionState_eqb (transactionState (store w)) submitted
   || TransactionState_eqb (transactionState (store w)) confirming)
  && truthy_string (transactionHash (store w)) = true
  <-> exists h, pending_with_hash h w.
Proof.
  unfold pending_with_hash, truthy_string.
  rewrite andb_true_iff, orb_true_iff, !TransactionState_eqb_eq.
  split.
  - intros [Ht Hh]. destruct (transactionHash (store w)) as [h|]; [|discriminate].
    exists h. repeat split; auto.
    apply String.eqb_neq. now apply negb_true_iff.
  - intros (h & Ht & -> & Hh). split; [exact Ht|].
    apply negb_true_iff. now apply String.eqb_neq.
Qed.

(** C8.  [resumeIfPending] attaches a polling session exactly when the
    stored tag is [submitted] or [confirming] and a non-empty hash is
    stored; otherwise it does nothing at all.  The session is for the
    stored hash and is fresh: its two timers are new and are the only ones
    set afterwards, the tick is due 3000 ms and the deadline a full
    60000 ms after the moment of the call, whatever was left of an earlier
    deadline. *)
Theorem resume_reattaches_fresh_session (w : World) :
  timers_owned w ->
  (forall h, pending_with_hash h w -> fresh_session h w (resumeIfPending w))
  /\ (forall h, fresh_session h w (resumeIfPending w) -> pending_with_hash h w)
  /\ ((forall h, ~ pending_with_hash h w) -> resumeIfPending w = w).
Proof.
  intros Hown. pose proof (timers_owned_held w Hown) as Hh.
  assert (Hyes : forall h, pending_with_hash h w ->
                           resumeIfPending w = startPolling h w).
  { intros h Hp. unfold resumeIfPending.
    rewrite (proj2 (resume_condition w) (ex_intro _ h Hp)).
    destruct Hp as (_ & -> & _). reflexivity. }
  assert (Hno : (forall h, ~ pending_with_hash h w) -> resumeIfPending w = w).
  { intros Hn. unfold resumeIfPending.
    destruct (_ && _) eqn:Ec; [|reflexivity].
    apply resume_condition in Ec. destruct Ec as [h Hp]. now destruct (Hn h). }
  assert (Hfresh : forall h, fresh_session h w (startPolling h w)).
  { intros h. rewrite (startPolling_owned h w Hh). repeat split. }
  split; [|split].
  - intros h Hp. rewrite (Hyes h Hp). apply Hfresh.
  - intros h Hf.
    destruct (transactionState (store w)) eqn:Et;
      destruct (transactionHash (store w)) as [h'|] eqn:Eh;
      try (exfalso; unfold resumeIfPending in Hf; rewrite Et, ?Eh in Hf;
           simpl in Hf; destruct Hf as (_ & _ & _ & Hn & _); lia).
    + destruct (String.eqb_spec h' "") as [->|Hne].
      * exfalso. unfold resumeIfPending in Hf. rewrite Et, Eh in Hf.
        simpl in Hf. destruct Hf as (_ & _ & _ & Hn & _). lia.
      * assert (Hp : pending_with_hash h' w).
        { unfold pending_with_hash. rewrite Et, Eh. auto. }
        rewrite (Hyes h' Hp), (startPolling_owned h' w Hh) in Hf.
        destruct Hf as (_ & _ & Ht & _). simpl in Ht.
        injection Ht as ->. exact Hp.
    + destruct (String.eqb_spec h' "") as [->|Hne].
      * exfalso. unfold resumeIfPending in Hf. rewrite Et, Eh in Hf.
        simpl in Hf. destruct Hf as (_ & _ & _ & Hn & _). lia.
      * assert (Hp : pending_with_hash h' w).
        { unfold pending_with_hash. rewrite Et, Eh. auto. }
        rewrite (Hyes h' Hp), (startPolling_owned h' w Hh) in Hf.
        destruct Hf as (_ & _ & Ht & _). simpl in Ht.
        injection Ht as ->. exact Hp.
  - exact Hno.
Qed.

Lemma resume_reattaches_fresh_session_witness :
  let w := exec [CallMarkSubmitted "h1"; Advance 10000] initialWorld in
  timers_owned w
  /\ pending_with_hash "h1" w
  /\ fresh_session "h1" w (resumeIfPending w)
  /\ timers (resumeIfPending w)
     = [mkTimer 2 (PollTick "h1") 13000; mkTimer 3 Deadline 70000].
Proof.
  assert (Hown : timers_owned
                   (exec [CallMarkSubmitted "h1"; Advance 10000] initialWorld))
    by apply exec_timers_owned, initial_timers_owned.
  assert (Hp : pending_with_hash "h1"
                 (exec [CallMarkSubmitted "h1"; Advance 10000] initialWorld)).
  { split; [right; reflexivity | split; [reflexivity | discriminate]]. }
  pose proof (proj1 (resume_reattaches_fresh_session _ Hown) "h1" Hp) as Hf.
  refine (conj Hown (conj Hp (conj Hf _))).
  exact (proj1 (proj2 (proj2 Hf))).
Defined.

(* ================================================================== *)
(** ** The store under the mutators *)

Lemma store_markFailed (error : ErrorArg) (w : World) :
  store (markFailed error w)
  = {| transactionState := failed;
       transactionHash := transactionHash (store w);
       transactionError :=
         Some match error with ErrObject m => m | ErrString s => s end |}.
Proof. unfold markFailed. simpl. now rewrite clearTimers_store. Qed.

Lemma store_startPolling (txHash : string) (w : World) :
  store (startPolling txHash w)
  = {| transactionState := confirming;
       transactionHash := transactionHash (store w);
       transactionError := transactionError (store w) |}.
Proof. unfold startPolling. simpl. now rewrite clearTimers_store. Qed.

Lemma store_checkTransactionStatus_resume (r : Response) (w : World) :
  store (checkTransactionStatus_resume r w)
  = match r with
    | RStatus SUCCESS =>
        {| transactionState := confirmed;
           transactionHash := transactionHash (store w);
           transactionError := transactionError (store w) |}
    | RStatus FAILED =>
        {| transactionState := failed;
           transactionHash := transactionHash (store w);
           transactionError := Some "Transaction failed on the ledger." |}
    | _ => store w
    end.
Proof.
  destruct r as [|[| |]]; cbn [checkTransactionStatus_resume]; try reflexivity.
  - simpl. now rewrite clearTimers_store.
  - now rewrite store_markFailed, clearTimers_store.
Qed.

Lemma store_fireTimer (id : nat) (w : World) :
  store (fireTimer id w) = store w
  \/ store (fireTimer id w)
     = {| transactionState := failed;
          transactionHash := transactionHash (store w);
          transactionError := Some timeout_message |}.
Proof.
  unfold fireTimer. destruct (find_timer id w) as [t|]; [|now left].
  destruct (t_due t <=? now w); [|now left].
  destruct (t_kind t); [now left|]. right.
  unfold onDeadline. now rewrite store_markFailed, clearTimers_store.
Qed.

Lemma store_resume (q : nat) (k : World -> World) (w : World) :
  store (resume q k w) = store w
  \/ exists w', store w' = store w /\ store (resume q k w) = store (k w').
Proof.
  destruct (resume_frame q k w) as [-> | ->]; [now left|].
  right. eexists. split; [|reflexivity]. reflexivity.
Qed.







(* ================================================================== *)
(** ** Cancelling a polling session *)

(** [resetState] and [startTransaction] clear both timers first and write
    to the store afterwards. *)
Lemma resetState_owned (w : World) :
  timers_owned w -> resetState w = resetTransaction (cleared w).
Proof.
  intros H. unfold resetState. now rewrite (clearTimers_owned w H).
Qed.

Lemma startTransaction_owned (w : World) :
  timers_owned w ->
  startTransaction w = setState building (resetTransaction (cleared w)).
Proof.
  intros H. unfold startTransaction. now rewrite (resetState_owned w H).
Qed.

(** X1.  After a reset no timer of the cancelled session is run: whatever time
    passes and whichever timer the host is asked to run, the store stays
    (idle, null, null), it is not written to, and no status query is
    issued. *)
Theorem reset_cancels_timers (w : World) (es : list Event) :
  timers_owned w ->
  forallb is_timer_event es = true ->
  let w' := exec es (resetState w) in
  store (resetState w) = initialStore
  /\ pollInterval (resetState w) = None
  /\ timeoutTimer (resetState w) = None
  /\ timers (resetState w) = []
  /\ store w' = initialStore
  /\ writes w' = (writes w ++ [PReset])%list
  /\ queries w' = queries w.
Proof.
  intros Hown Hes w'.
  assert (E : timers (resetState w) = [])
    by now rewrite (resetState_owned w Hown).
  destruct (exec_timer_events_idle es (resetState w) Hes E) as [t Et].
  unfold w'. rewrite Et, (resetState_owned w Hown).
  repeat split.
Qed.

Lemma reset_cancels_timers_witness :
  let w := exec [CallMarkSubmitted "h1"; Advance 3000] initialWorld in
  let w' := exec [TimerFire 0; Advance 60000; TimerFire 1; TimerFire 0]
              (resetState w) in
  timers w = [mkTimer 0 (PollTick "h1") 3000; mkTimer 1 Deadline 60000]
  /\ store w' = initialStore
  /\ queries w' = [].
Proof.
  pose proof (reset_cancels_timers
                (exec [CallMarkSubmitted "h1"; Advance 3000] initialWorld)
                [TimerFire 0; Advance 60000; TimerFire 1; TimerFire 0]
                (exec_timers_owned _ _ initial_timers_owned) eq_refl) as H.
  cbv zeta in H. destruct H as (_ & _ & _ & _ & Hs & _ & Hq).
  exact (conj eq_refl (conj Hs Hq)).
Defined.

(** X2.  The same for a mint started through [startTransaction]: both timers of
    the session in flight are cleared before the first write, and no timer
    of that session is run afterwards. *)
Theorem startTransaction_cancels_timers (w : World) (es : list Event) :
  timers_owned w ->
  forallb is_timer_event es = true ->
  let w' := exec es (startTransaction w) in
  timers (startTransaction w) = []
  /\ store w' = {| transactionState := building;
                   transactionHash := None; transactionError := None |}
  /\ writes w' = (writes w ++ [PReset; PState building])%list
  /\ queries w' = queries w.
Proof.
  intros Hown Hes w'.
  assert (E : timers (startTransaction w) = [])
    by now rewrite (startTransaction_owned w Hown).
  destruct (exec_timer_events_idle es (startTransaction w) Hes E) as [t Et].
  unfold w'. rewrite Et, (startTransaction_owned w Hown).
  repeat split. simpl. now rewrite <- app_assoc.
Qed.

Lemma startTransaction_cancels_timers_witness :
  let w := exec [CallMarkSubmitted "h1"; Advance 3000] initialWorld in
  let w' := exec [TimerFire 0; Advance 60000; TimerFire 1; TimerFire 0]
              (startTransaction w) in
  timers w = [mkTimer 0 (PollTick "h1") 3000; mkTimer 1 Deadline 60000]
  /\ transactionState (store w') = building
  /\ queries w' = [].
Proof.
  pose proof (startTransaction_cancels_timers
                (exec [CallMarkSubmitted "h1"; Advance 3000] initialWorld)
                [TimerFire 0; Advance 60000; TimerFire 1; TimerFire 0]
                (exec_timers_owned _ _ initial_timers_owned) eq_refl) as H.
  cbv zeta in H. destruct H as (_ & Hs & _ & Hq).
  refine (conj eq_refl (conj _ Hq)). now rewrite Hs.
Defined.

(** X3.  At most one polling session: in every state the process reaches the
    timers set are none, or the one interval and the one deadline whose
    handles the observer holds. *)
Theorem at_most_one_session (es : list Event) :
  timers_owned (exec es initialWorld).
Proof. apply exec_timers_owned, initial_timers_owned. Qed.

(** C6 at its failing input.  A tick has issued its status query; [reset]
    is called while the query is in flight; the answer arrives.  The reset
    left (idle, null, null) and no timer, and still the answer of the
    cancelled session is applied: the store is written to once more and
    shows [confirmed], with no mint started in between. *)
Lemma reset_does_not_stop_query_in_flight :
  let w := exec [CallMarkSubmitted "h1"; Advance 3000; TimerFire 0;
                 CallResetState] initialWorld in
  let w' := step (QueryReturn 0 (RStatus SUCCESS)) w in
  store w = initialStore
  /\ timers w = [] /\ pollInterval w = None /\ timeoutTimer w = None
  /\ store w' = {| transactionState := confirmed;
                   transactionHash := None; transactionError := None |}
  /\ writes w' = (writes w ++ [PState confirmed])%list.
Proof. vm_compute. repeat split. Qed.

(** C2 at its failing inputs.  First, [mintWrap] of [walletKit.ts] resets
    the store directly and never clears the observer's timers: a session
    polling for "h1" is still set when a second mint has completed with
    "h2", and when its deadline timer runs the store of the second mint
    becomes [failed].  Second, a mint started through [startTransaction]
    does clear the timers, but the status query a tick of the first session
    had issued is still in flight, and its answer turns the second mint's
    [building] into [confirmed]. *)
Lemma second_mint_does_not_silence_first_session :
  (let w1 := exec [CallMarkSubmitted "h1"] initialWorld in
   let r := mintWrap (env_with (bridge_confirms "h2")) (params_with None) w1 in
   let w3 := exec [Advance 60000; TimerFire 1] (fst r) in
   snd r = Ok "h2"
   /\ store (fst r) = {| transactionState := confirmed;
                         transactionHash := Some "h2";
                         transactionError := None |}
   /\ timers (fst r) = timers w1
   /\ store w3 = {| transactionState := failed;
                    transactionHash := Some "h2";
                    transactionError := Some timeout_message |})
  /\
  (let v1 := exec [CallMarkSubmitted "h1"; Advance 3000; TimerFire 0]
               initialWorld in
   let v2 := startTransaction v1 in
   let v3 := step (QueryReturn 0 (RStatus SUCCESS)) v2 in
   timers v2 = []
   /\ store v2 = {| transactionState := building;
                    transactionHash := None; transactionError := None |}
   /\ store v3 = {| transactionState := confirmed;
                    transactionHash := None; transactionError := None |}).
Proof. vm_compute. repeat split. Qed.

(* ================================================================== *)
(** ** The observers of a mint *)

(** C1, as the specification words it, fails: [bridgedObserver] calls the
    caller's observer first and outside any [try], so when that observer
    throws the store is not written to.  In a whole mint whose bridge goes
    on after each failed notification, the store sees none of the reported
    transitions. *)
Lemma throwing_observer_blocks_store :
  (forall state data w,
      throwing_observer state data w
      = (w, Throw (ThrownError PlainError "observer failed")))
  /\ ~ sink_isolation throwing_observer
  /\ (let w := setTransactionState building (resetTransaction initialWorld) in
      bridgedObserver (Some throwing_observer) "simulating" NoData w
      = (w, Throw (ThrownError PlainError "observer failed")))
  /\ (let r := mintWrap (env_with (bridge_confirms "h2"))
                 (params_with (Some throwing_observer)) initialWorld in
      writes (fst r)
      = [PReset; PState building; PState confirmed; PHash (Some "h2")]).
Proof.
  split; [reflexivity|]. split; [|split; reflexivity].
  intros H.
  specialize (H "simulating" NoData
                (setTransactionState building (resetTransaction initialWorld))
                simulating eq_refl).
  discriminate H.
Qed.

(** C1 (amended).  One notification through [bridgedObserver].  When the
    caller's observer is absent or returns, the store is written to next:
    its tag becomes the one the reported state stands for (building for
    "pending", simulating, signing for "signed", submitting for
    "submitted", confirmed, failed), and a state that stands for none
    leaves the store alone.  When the caller's observer throws, the
    notification ends there: the exception goes to the bridge and the store
    is left as that observer left it. *)
Theorem bridgedObserver_after_caller_observer
    (observer : option Observer) (state : string) (data : Payload) (w : World) :
  let r := match observer with
           | Some obs => obs state data w
           | None => (w, Ok tt)
           end in
  match snd r with
  | Throw e => bridgedObserver observer state data w = (fst r, Throw e)
  | Ok _ =>
      snd (bridgedObserver observer state data w) = Ok tt
      /\ (forall t, store_tag state = Some t ->
            transactionState (store (fst (bridgedObserver observer state data w))) = t
            /\ exists rest,
                 writes (fst (bridgedObserver observer state data w))
                 = (writes (fst r) ++ PState t :: rest)%list)
      /\ (store_tag state = None ->
            fst (bridgedObserver observer state data w) = fst r)
  end.
Proof.
  intros r.
  assert (E : bridgedObserver observer state data w
              = match r with
                | (w1, Ok _) =>
                    bridgedObserver None state data w1
                | (w1, Throw e) => (w1, Throw e)
                end).
  { unfold bridgedObserver, bind, r. destruct observer as [obs|]; simpl.
    - destruct (obs state data w) as [w1 [u|e]]; reflexivity.
    - reflexivity. }
  rewrite E. destruct r as [w1 [u|e]]; simpl; [|reflexivity].
  unfold bridgedObserver, store_tag, bind, ret, lift. simpl.
  destruct (String.eqb state "pending");
    [ split; [reflexivity | split; [intros t [= <-]; split; [reflexivity | now exists []] | discriminate]] |].
  destruct (String.eqb state "simulating");
    [ split; [reflexivity | split; [intros t [= <-]; split; [reflexivity | now exists []] | discriminate]] |].
  destruct (String.eqb state "signed");
    [ split; [reflexivity | split; [intros t [= <-]; split; [reflexivity | now exists []] | discriminate]] |].
  destruct (String.eqb state "submitted");
    [ split; [reflexivity | split; [intros t [= <-]; split; [reflexivity | now exists []] | discriminate]] |].
  destruct (String.eqb state "confirmed").
  { destruct data as [|fields]; [|destruct (property "transactionHash" fields)];
      simpl; (split; [reflexivity | split; [intros t [= <-]; split; [reflexivity|] | discriminate]]).
    - now exists [].
    - eexists. rewrite <- app_assoc. reflexivity.
    - now exists []. }
  destruct (String.eqb state "failed").
  { destruct data as [|fields]; [|destruct (property "error" fields)];
      simpl; (split; [reflexivity | split; [intros t [= <-]; split; [reflexivity|] | discriminate]]).
    - now exists [].
    - eexists. rewrite <- app_assoc. reflexivity.
    - now exists []. }
  split; [reflexivity | split; [discriminate | reflexivity]].
Qed.

(* ================================================================== *)
(** ** The error policy of [mintWrap] *)

(** [fetchIndexedStats] never throws. *)
Lemma fetchIndexedStats_returns
    (env : Env) (accountAddress network period : string) (w : World) :
  exists w1 s,
    fetchIndexedStats env accountAddress network period w = (w1, Ok s).
Proof.
  unfold fetchIndexedStats.
  destruct (encodeURIComponent env accountAddress) as [account|];
    [|eexists; eexists; reflexivity].
  destruct (fetch env _) as [|[|] st [| |data]];
    eexists; eexists; reflexivity.
Qed.

(** What is thrown inside the [try] of [mintWrap] comes from one of two
    places: [initWalletKit], or the run of the bridge, which includes what
    the observers throw and the bridge lets through. *)
Lemma mintWrap_try_throws
    (env : Env) (params : MintWrapParams) (w w1 : World) (e : Thrown) :
  mintWrap_try env params w = (w1, Throw e) ->
  initWalletKit env w = (w1, Throw e)
  \/ exists w0 options,
       mintWrap_prepare env params w = (w0, Ok options)
       /\ run_bridge (contractMintWrap env options)
            (bridgedObserver (observer params)) w0 = (w1, Throw e).
Proof.
  unfold mintWrap_try, bind at 1.
  destruct (mintWrap_prepare env params w) as [w0 [options|e0]] eqn:Ep.
  - intros H. right. exists w0, options. split; [reflexivity|].
    unfold mintWrap_invoke, bind in H.
    destruct (run_bridge _ _ w0) as [w2 [h|e2]]; [discriminate H | exact H].
  - intros [= <- <-]. left.
    unfold mintWrap_prepare, bind in Ep.
    destruct (initWalletKit env w) as [wi [u|ei]];
      [|now injection Ep as -> ->].
    exfalso. destruct (stats params) as [st|]; [discriminate Ep|].
    destruct (fetchIndexedStats_returns env (userAddress params)
                (network params) "yearly" wi) as (wf & sf & Ef).
    rewrite Ef in Ep. discriminate Ep.
Qed.

(** C4.  An [Error] thrown inside the [try] of [mintWrap], with the
    process in state [w1] at that moment.  If it is of one of the four
    configuration and validation classes, [mintWrap] throws that very error
    and writes nothing: the process is left in [w1].  If it is any other
    [Error], the tag is set to [failed], then the message is recorded, and
    [mintWrap] throws an [Error] whose message is "Minting failed: "
    followed by the original message. *)
Theorem mintWrap_error_policy
    (env : Env) (params : MintWrapParams) (w w1 : World) (e : Thrown) :
  mintWrap_try env params w = (w1, Throw e) ->
  (is_configuration_error e = true ->
     mintWrap env params w = (w1, Throw e))
  /\ (forall message, e = ThrownError PlainError message ->
        exists w2,
          mintWrap env params w
          = (w2, Throw (ThrownError PlainError ("Minting failed: " ++ message)))
          /\ store w2 = {| transactionState := failed;
                           transactionHash := transactionHash (store w1);
                           transactionError := Some message |}
          /\ writes w2
             = (writes w1 ++ [PState failed; PError (Some message)])%list).
Proof.
  intros Htry. unfold mintWrap, try_catch. rewrite Htry. split.
  - destruct e as [[| | | |] m | v]; simpl; intros H;
      try discriminate H; reflexivity.
  - intros message ->. eexists. split; [reflexivity|].
    split; [reflexivity|]. simpl. now rewrite <- app_assoc.
Qed.

Lemma mintWrap_error_policy_witness :
  (let env := env_with (BNotify "pending" NoData (fun _ =>
                        BThrow (ThrownError ContractNotFoundError "no contract"))) in
   mintWrap env (params_with None) initialWorld
   = (setTransactionState building
        (setTransactionState building
           (resetTransaction (with_isInitialized true (console_log initialWorld)))),
      Throw (ThrownError ContractNotFoundError "no contract")))
  /\
  (let env := env_with (BNotify "pending" NoData (fun _ =>
                        BThrow (ThrownError PlainError "User rejected"))) in
   exists w2,
     mintWrap env (params_with None) initialWorld
     = (w2, Throw (ThrownError PlainError "Minting failed: User rejected"))
     /\ store w2 = {| transactionState := failed;
                      transactionHash := None;
                      transactionError := Some "User rejected" |}
     /\ writes w2 = [PReset; PState building; PState building;
                     PState failed; PError (Some "User rejected")]).
Proof.
  split.
  - exact (proj1 (mintWrap_error_policy
                    (env_with (BNotify "pending" NoData (fun _ =>
                       BThrow (ThrownError ContractNotFoundError "no contract"))))
                    (params_with None) initialWorld _ _ eq_refl) eq_refl).
  - exact (proj2 (mintWrap_error_policy
                    (env_with (BNotify "pending" NoData (fun _ =>
                       BThrow (ThrownError PlainError "User rejected"))))
                    (params_with None) initialWorld _ _ eq_refl) _ eq_refl).
Defined.

(** C10.  A value that is not an [Error] instance, thrown inside the [try]
    of [mintWrap]: the tag is set to [failed], the message "Minting failed:
    Unknown error occurred" is recorded, and [mintWrap] throws an [Error]
    with that same message. *)
Theorem mintWrap_unknown_error
    (env : Env) (params : MintWrapParams) (w w1 : World) (v : string) :
  mintWrap_try env params w = (w1, Throw (ThrownValue v)) ->
  exists w2,
    mintWrap env params w
    = (w2, Throw (ThrownError PlainError "Minting failed: Unknown error occurred"))
    /\ store w2 = {| transactionState := failed;
                     transactionHash := transactionHash (store w1);
                     transactionError :=
                       Some "Minting failed: Unknown error occurred" |}.
Proof.
  intros Htry. unfold mintWrap, try_catch. rewrite Htry.
  eexists. split; reflexivity.
Qed.

Lemma mintWrap_unknown_error_witness :
  let env := env_with (BNotify "pending" NoData (fun _ =>
                       BThrow (ThrownValue "rejected"))) in
  exists w2,
    mintWrap env (params_with None) initialWorld
    = (w2, Throw (ThrownError PlainError "Minting failed: Unknown error occurred"))
    /\ store w2 = {| transactionState := failed;
                     transactionHash := None;
                     transactionError :=
                       Some "Minting failed: Unknown error occurred" |}.
Proof.
  exact (mintWrap_unknown_error
           (env_with (BNotify "pending" NoData (fun _ =>
                      BThrow (ThrownValue "rejected"))))
           (params_with None) initialWorld _ "rejected" eq_refl).
Defined.

(** The revision built on [transactionObserver] has the same two paths and
    no class of errors it lets through: its mint always ends in the
    [catch], because [invokeMintWrapContract] throws. *)
Lemma observed_mintWrap_fails (env : Env) (userAddress : string) (w : World) :
  timers_owned w -> kitInit env = None ->
  exists w2 message,
    Observed.mintWrap env userAddress w
    = (w2, Throw (ThrownError PlainError ("Minting failed: " ++ message)))
    /\ store w2 = {| transactionState := failed;
                     transactionHash := None;
                     transactionError := Some message |}
    /\ timers w2 = [].
Proof.
  intros Hown Hinit.
  assert (Hclear : forall w0 error,
             timers_owned w0 ->
             timers (markFailed error (markSimulating (startTransaction w0))) = []).
  { intros w0 error H0. rewrite markFailed_owned; [reflexivity|].
    apply timers_owned_held.
    apply (step_timers_owned CallMarkSimulating),
          (step_timers_owned CallStartTransaction), H0. }
  unfold Observed.mintWrap, Observed.mintWrap_try, try_catch, bind,
    initWalletKit, lift. rewrite Hinit.
  destruct (negb (isInitialized w) && hasWindow env); simpl.
  - eexists. eexists. split; [reflexivity|].
    rewrite store_markFailed. split; [reflexivity|].
    apply Hclear. revert Hown. now apply timers_owned_frame.
  - eexists. eexists. split; [reflexivity|].
    rewrite store_markFailed. split; [reflexivity|].
    apply Hclear, Hown.
Qed.

Lemma observed_mintWrap_unknown_error (env : Env) (userAddress v : string) (w : World) :
  isInitialized w = false -> hasWindow env = true ->
  kitInit env = Some (ThrownValue v) ->
  exists w2,
    Observed.mintWrap env userAddress w
    = (w2, Throw (ThrownError PlainError "Minting failed: Unknown error occurred"))
    /\ store w2 = {| transactionState := failed;
                     transactionHash := transactionHash (store w);
                     transactionError :=
                       Some "Minting failed: Unknown error occurred" |}.
Proof.
  intros Hi Hw Hk.
  unfold Observed.mintWrap, Observed.mintWrap_try, try_catch, bind,
    initWalletKit. rewrite Hi, Hw, Hk. simpl.
  eexists. split; [reflexivity|]. now rewrite store_markFailed.
Qed.

(* ================================================================== *)
(** ** The usage statistics *)

(** Whatever goes wrong with the request, [fetchIndexedStats] returns the
    defaults and does not throw. *)
Lemma fetchIndexedStats_failure
    (env : Env) (accountAddress network period : string) (w : World) :
  (forall url, fetch_failed (fetch env url) = true) ->
  fetchIndexedStats env accountAddress network period w
  = (console_log w, Ok defaultStats).
Proof.
  intros Hf. unfold fetchIndexedStats.
  destruct (encodeURIComponent env accountAddress) as [account|]; [|reflexivity].
  specialize (Hf ("/api/wrapped?accountId=" ++ account
                  ++ "&network=" ++ network ++ "&period=" ++ period)).
  destruct (fetch env _) as [|[|] st j]; simpl in Hf;
    [reflexivity | discriminate Hf | reflexivity].
Qed.

(** C9.  [mintWrap] called without [stats] while the stats source fails
    (the request is rejected, or answered with a response that is not ok):
    [fetchIndexedStats] yields the defaults 0, "XLM", 0 and does not throw;
    [mintWrap] goes on, resets the store and sets the tag to [building];
    the bridge is then called, in that state, with exactly those three
    values (and the timeframe "all"). *)
Theorem stats_failure_uses_defaults
    (env : Env) (params : MintWrapParams) (w : World) :
  stats params = None ->
  kitInit env = None ->
  (forall url, fetch_failed (fetch env url) = true) ->
  let options :=
    {| accountAddress := userAddress params;
       opt_network := network params;
       opt_stats := {| opt_totalVolume := 0%float;
                       opt_mostActiveAsset := "XLM";
                       opt_contractCalls := 0%float;
                       opt_timeframe := "all" |} |} in
  snd (fetchIndexedStats env (userAddress params) (network params) "yearly" w)
  = Ok {| totalVolume := 0%float; mostActiveAsset := "XLM";
          contractCalls := 0%float |}
  /\ exists w1,
       mintWrap_prepare env params w = (w1, Ok options)
       /\ store w1 = {| transactionState := building;
                        transactionHash := None; transactionError := None |}
       /\ mintWrap env params w
          = try_catch (mintWrap_invoke env params options) mintWrap_catch w1.
Proof.
  intros Hs Hk Hf options. split.
  - now rewrite fetchIndexedStats_failure.
  - assert (E : exists w0, initWalletKit env w = (w0, Ok tt)).
    { unfold initWalletKit. rewrite Hk.
      destruct (negb (isInitialized w) && hasWindow env); eexists; reflexivity. }
    destruct E as [w0 E].
    exists (setTransactionState building (resetTransaction (console_log w0))).
    assert (Ep : mintWrap_prepare env params w
                 = (setTransactionState building
                      (resetTransaction (console_log w0)), Ok options)).
    { unfold mintWrap_prepare, bind. rewrite E, Hs.
      rewrite fetchIndexedStats_failure by exact Hf. reflexivity. }
    split; [exact Ep|]. split; [reflexivity|].
    unfold mintWrap, mintWrap_try, try_catch, bind. now rewrite Ep.
Qed.

Lemma stats_failure_uses_defaults_witness :
  let env :=
    {| hasWindow := true; kitInit := None;
       encodeURIComponent := fun s => Some s;
       fetch := fun _ => FetchResponds false "Internal Server Error" JsonRejects;
       contractMintWrap := fun _ => bridge_confirms "h2";
       NEXT_PUBLIC_CONTRACT_ADDRESS := None |} in
  exists w1,
    mintWrap_prepare env (params_with None) initialWorld
    = (w1, Ok {| accountAddress := "GABC"; opt_network := "testnet";
                 opt_stats := {| opt_totalVolume := 0%float;
                                 opt_mostActiveAsset := "XLM";
                                 opt_contractCalls := 0%float;
                                 opt_timeframe := "all" |} |})
    /\ store w1 = {| transactionState := building;
                     transactionHash := None; transactionError := None |}.
Proof.
  destruct (proj2 (stats_failure_uses_defaults
             {| hasWindow := true; kitInit := None;
                encodeURIComponent := fun s => Some s;
                fetch := fun _ => FetchResponds false "Internal Server Error" JsonRejects;
                contractMintWrap := fun _ => bridge_confirms "h2";
                NEXT_PUBLIC_CONTRACT_ADDRESS := None |}
             (params_with None) initialWorld eq_refl eq_refl
             (fun _ => eq_refl))) as (w1 & Ep & Es & _).
  exists w1. exact (conj Ep Es).
Defined.

(* ================================================================== *)
(** ** The order of the notifications *)





(** The other half of the invariant has no support in [walletKit.ts]
    either: a "failed" notification without an [error] sets the tag alone. *)
Lemma bridged_failure_without_message :
  store (fst (bridgedObserver None "failed" NoData initialWorld))
  = {| transactionState := failed;
       transactionHash := None; transactionError := None |}.
Proof. reflexivity. Qed.

(* ================================================================== *)
(** ** What holds in every state of the observer *)

(** *** A settled tag has no poller *)

Lemma timers_owned_no_timers (w : World) :
  timers_owned w -> timers w = [] ->
  pollInterval w = None /\ timeoutTimer w = None.
Proof.
  intros [(Ei & Ed & _) | (i & d & h & di & dd & _ & _ & _ & E)] E0.
  - auto.
  - rewrite E in E0. discriminate E0.
Qed.

Lemma step_settled (e : Event) (w : World) :
  timers_owned w ->
  (settled (transactionState (store w)) = true -> timers w = []) ->
  settled (transactionState (store (step e w))) = true ->
  timers (step e w) = [].
Proof.
  intros Hown Hw. pose proof (timers_owned_held w Hown) as Hh.
  destruct e; cbn [step].
  - now rewrite (startTransaction_owned w Hown).
  - discriminate.
  - discriminate.
  - discriminate.
  - discriminate.
  - discriminate.
  - rewrite (markSubmitted_owned _ w Hown). discriminate.
  - now rewrite (markFailed_owned _ w Hh).
  - now rewrite (resetState_owned w Hown).
  - unfold resumeIfPending. destruct (_ && _); [|exact Hw].
    destruct (transactionHash (store w)); [|exact Hw].
    rewrite (startPolling_owned _ w Hh). discriminate.
  - destruct (0 <=? dt); exact Hw.
  - destruct Hown as [(_ & _ & E) | (i & d & h & di & dd & Ei & Ed & Hid & E)].
    + rewrite (fireTimer_none id w E). exact Hw.
    + destruct (Nat.eq_dec id i) as [->|Hi].
      * destruct (Z_le_gt_dec di (now w)) as [Hdue|Hdue].
        -- rewrite (fireTimer_tick w i d h di dd Hid E Hdue). simpl.
           intros Hs. apply Hw in Hs. rewrite E in Hs. discriminate Hs.
        -- rewrite (fireTimer_tick_early w i d h di dd Hid E) by lia. exact Hw.
      * destruct (Nat.eq_dec id d) as [->|Hd].
        -- destruct (Z_le_gt_dec dd (now w)) as [Hdue|Hdue].
           ++ now rewrite (fireTimer_deadline w i d h di dd Hid E Ei Ed Hdue).
           ++ rewrite (fireTimer_deadline_early w i d h di dd Hid E) by lia.
              exact Hw.
        -- rewrite (fireTimer_other w i d h di dd Hid E id Hi Hd). exact Hw.
  - destruct (resume_frame q (checkTransactionStatus_resume r) w) as [-> | ->];
      [exact Hw|].
    rewrite checkTransactionStatus_resume_owned by exact Hh.
    destruct r as [|[| |]]; try exact Hw; reflexivity.
  - destruct (resume_frame q checkTransactionStatus_catch w) as [-> | ->];
      exact Hw.
Qed.

Lemma exec_settled (es : list Event) (w : World) :
  timers_owned w ->
  (settled (transactionState (store w)) = true -> timers w = []) ->
  settled (transactionState (store (exec es w))) = true ->
  timers (exec es w) = [].
Proof.
  revert w. induction es as [|e es IH]; intros w Hown Hw; [exact Hw|].
  rewrite exec_cons. apply IH.
  - now apply step_timers_owned.
  - now apply step_settled.
Qed.

(** X7.  In every state the observer reaches, a tag of idle, building,
    confirmed or failed means that no polling session is left: no timer is
    set and both handles are null.  A session exists only under the tags of
    a mint in progress. *)
Theorem settled_tag_has_no_poller (es : list Event) :
  settled (transactionState (store (exec es initialWorld))) = true ->
  timers (exec es initialWorld) = []
  /\ pollInterval (exec es initialWorld) = None
  /\ timeoutTimer (exec es initialWorld) = None.
Proof.
  intros Hs.
  assert (E : timers (exec es initialWorld) = []).
  { apply exec_settled; [apply initial_timers_owned | reflexivity | exact Hs]. }
  split; [exact E|].
  apply timers_owned_no_timers; [|exact E].
  apply exec_timers_owned, initial_timers_owned.
Qed.

Lemma settled_tag_has_no_poller_witness :
  let es := [CallMarkSubmitted "h1"; Advance 3000; TimerFire 0;
             CallMarkSubmitted "h2"; QueryReturn 0 (RStatus SUCCESS)] in
  transactionState (store (exec es initialWorld)) = confirmed
  /\ timers (exec es initialWorld) = []
  /\ pollInterval (exec es initialWorld) = None
  /\ timeoutTimer (exec es initialWorld) = None.
Proof.
  exact (conj eq_refl
           (settled_tag_has_no_poller
              [CallMarkSubmitted "h1"; Advance 3000; TimerFire 0;
               CallMarkSubmitted "h2"; QueryReturn 0 (RStatus SUCCESS)]
              eq_refl)).
Defined.

(** *** The hashes the poller asks about *)

Lemma hashes_known_weaken (S S' : string -> Prop) (w : World) :
  (forall h, S h -> S' h) -> hashes_known S w -> hashes_known S' w.
Proof.
  intros HS (Ha & Hb & Hc). repeat split; auto.
Qed.

(** A step that keeps the stored hash and the queries, and sets no timer
    of a new kind. *)
Lemma hashes_known_frame (S : string -> Prop) (w w' : World) :
  transactionHash (store w') = transactionHash (store w) ->
  (forall t, In t (timers w') ->
             exists t0, In t0 (timers w) /\ t_kind t0 = t_kind t) ->
  queries w' = queries w ->
  hashes_known S w -> hashes_known S w'.
Proof.
  intros Eh Ht Eq (Ha & Hb & Hc). repeat split.
  - intros h. rewrite Eh. apply Ha.
  - intros t h Hin Hk. rewrite Eh.
    destruct (Ht t Hin) as (t0 & Hin0 & Ek).
    apply (Hb t0 h Hin0). now rewrite Ek.
  - intros h. rewrite Eq. apply Hc.
Qed.

Lemma no_timers_sub (w : World) (t : Timer) :
  In t (@nil Timer) -> exists t0, In t0 (timers w) /\ t_kind t0 = t_kind t.
Proof. intros []. Qed.

Lemma same_timers_sub (w : World) (t : Timer) :
  In t (timers w) -> exists t0, In t0 (timers w) /\ t_kind t0 = t_kind t.
Proof. intros H. now exists t. Qed.

Lemma hashes_known_startPolling (S : string -> Prop) (h : string) (w : World) :
  timers_held w ->
  transactionHash (store w) = Some h ->
  hashes_known S w -> hashes_known S (startPolling h w).
Proof.
  intros Hh Eh (Ha & Hb & Hc). rewrite (startPolling_owned h w Hh).
  repeat split; simpl.
  - exact Ha.
  - intros t h' [<- | [<- | []]]; simpl; [|discriminate].
    now intros [= <-].
  - exact Hc.
Qed.

Lemma step_hashes_known (S : string -> Prop) (e : Event) (w : World) :
  timers_owned w ->
  hashes_known S w ->
  hashes_known (fun h => S h \/ e = CallMarkSubmitted h) (step e w).
Proof.
  intros Hown H. pose proof (timers_owned_held w Hown) as Hh.
  assert (H' : hashes_known (fun h => S h \/ e = CallMarkSubmitted h) w)
    by (revert H; apply hashes_known_weaken; auto).
  destruct e; cbn [step]; try (exact H').
  - rewrite (startTransaction_owned w Hown). destruct H' as (_ & _ & Hc).
    repeat split; simpl; [discriminate | intros t h [] | exact Hc].
  - rewrite (markSubmitted_owned txHash w Hown). destruct H' as (_ & _ & Hc).
    repeat split; simpl.
    + intros h [= <-]. now right.
    + intros t h [<- | [<- | []]]; simpl; [|discriminate]. now intros [= <-].
    + exact Hc.
  - rewrite (markFailed_owned _ w Hh). revert H'.
    apply hashes_known_frame; try reflexivity. apply no_timers_sub.
  - rewrite (resetState_owned w Hown). destruct H' as (_ & _ & Hc).
    repeat split; simpl; [discriminate | intros t h [] | exact Hc].
  - unfold resumeIfPending. destruct (_ && _); [|exact H'].
    destruct (transactionHash (store w)) as [h|] eqn:Eh; [|exact H'].
    now apply hashes_known_startPolling.
  - destruct (0 <=? dt); exact H'.
  - destruct Hown as [(_ & _ & E) | (i & d & h & di & dd & Ei & Ed & Hid & E)].
    + rewrite (fireTimer_none id w E). exact H'.
    + destruct (Nat.eq_dec id i) as [->|Hi].
      * destruct (Z_le_gt_dec di (now w)) as [Hdue|Hdue].
        -- rewrite (fireTimer_tick w i d h di dd Hid E Hdue).
           destruct H' as (Ha & Hb & Hc).
           assert (Eh : transactionHash (store w) = Some h).
           { apply (Hb (mkTimer i (PollTick h) di)); [|reflexivity].
             rewrite E. now left. }
           repeat split; simpl.
           ++ exact Ha.
           ++ intros t h' [<- | [<- | []]]; simpl; [|discriminate].
              now intros [= <-].
           ++ intros h' Hin. apply in_app_or in Hin.
              destruct Hin as [Hin | [<- | []]]; [now apply Hc | now apply Ha].
        -- rewrite (fireTimer_tick_early w i d h di dd Hid E) by lia. exact H'.
      * destruct (Nat.eq_dec id d) as [->|Hd].
        -- destruct (Z_le_gt_dec dd (now w)) as [Hdue|Hdue].
           ++ rewrite (fireTimer_deadline w i d h di dd Hid E Ei Ed Hdue).
              revert H'. apply hashes_known_frame; try reflexivity.
              apply no_timers_sub.
           ++ rewrite (fireTimer_deadline_early w i d h di dd Hid E) by lia.
              exact H'.
        -- rewrite (fireTimer_other w i d h di dd Hid E id Hi Hd). exact H'.
  - destruct (resume_frame q (checkTransactionStatus_resume r) w) as [-> | ->];
      [exact H'|].
    rewrite checkTransactionStatus_resume_owned by exact Hh.
    destruct r as [|[| |]]; try exact H';
      (revert H'; apply hashes_known_frame; try reflexivity;
       apply no_timers_sub).
  - destruct (resume_frame q checkTransactionStatus_catch w) as [-> | ->];
      exact H'.
Qed.

Lemma exec_hashes_known (S : string -> Prop) (es : list Event) (w : World) :
  timers_owned w ->
  hashes_known S w ->
  hashes_known (fun h => S h \/ In (CallMarkSubmitted h) es) (exec es w).
Proof.
  revert S w. induction es as [|e es IH]; intros S w Hown H.
  - revert H. apply hashes_known_weaken. auto.
  - rewrite exec_cons.
    pose proof (IH _ _ (step_timers_owned e w Hown)
                  (step_hashes_known S e w Hown H)) as H1.
    revert H1. apply hashes_known_weaken.
    intros h [[HS | He] | Hin]; [now left | right; now left | right; now right].
Qed.

(** X8.  The poller asks about submitted transactions only.  In every
    state the observer reaches from its start, each status query that was
    ever issued, and the stored hash if there is one, is a hash that was
    passed to [markSubmitted]; and a session that is polling polls for the
    hash the store shows. *)
Theorem queried_hashes_were_submitted (es : list Event) :
  (forall h, In h (queries (exec es initialWorld)) ->
             In (CallMarkSubmitted h) es)
  /\ (forall h, transactionHash (store (exec es initialWorld)) = Some h ->
                In (CallMarkSubmitted h) es)
  /\ (forall t h, In t (timers (exec es initialWorld)) ->
                  t_kind t = PollTick h ->
                  transactionHash (store (exec es initialWorld)) = Some h).
Proof.
  assert (H0 : hashes_known (fun _ => False) initialWorld).
  { repeat split; simpl; [discriminate | intros t h [] | intros h []]. }
  destruct (exec_hashes_known _ es _ initial_timers_owned H0) as (Ha & Hb & Hc).
  repeat split.
  - intros h Hin. destruct (Hc h Hin) as [[] | H]. exact H.
  - intros h Eh. destruct (Ha h Eh) as [[] | H]. exact H.
  - exact Hb.
Qed.

(** *** The cadence of the status queries *)

Local Arguments Z.mul : simpl never.
Local Arguments Z.add : simpl never.

Lemma cadence_frame (w w' : World) :
  queries w' = queries w ->
  now w <= now w' ->
  timers w' = timers w \/ timers w' = [] ->
  cadence w -> cadence w'.
Proof.
  unfold cadence. intros Eq Hn Ht (H1 & H2). rewrite Eq. split; [lia|].
  destruct Ht as [-> | ->]; [|intros t []].
  intros t Hin. destruct (H2 t Hin) as [Ha Hb]. split; [exact Ha | lia].
Qed.

Lemma cadence_startPolling (h : string) (w : World) :
  timers_held w -> cadence w -> cadence (startPolling h w).
Proof.
  intros Hh (H1 & _). rewrite (startPolling_owned h w Hh).
  unfold cadence, POLLING_INTERVAL, MAX_POLLING_DURATION in *. simpl.
  split; [exact H1|].
  intros t [<- | [<- | []]]; simpl; (split; [intros h' Hk; try discriminate Hk|]);
    unfold POLLING_INTERVAL, MAX_POLLING_DURATION; lia.
Qed.

Lemma step_cadence (e : Event) (w : World) :
  timers_owned w -> cadence w -> cadence (step e w).
Proof.
  intros Hown H. pose proof (timers_owned_held w Hown) as Hh.
  destruct e; cbn [step]; try exact H.
  - rewrite (startTransaction_owned w Hown). revert H.
    apply cadence_frame; simpl; auto; lia.
  - unfold markSubmitted. apply cadence_startPolling; [exact Hh | exact H].
  - rewrite (markFailed_owned _ w Hh). revert H.
    apply cadence_frame; simpl; auto; lia.
  - rewrite (resetState_owned w Hown). revert H.
    apply cadence_frame; simpl; auto; lia.
  - unfold resumeIfPending. destruct (_ && _); [|exact H].
    destruct (transactionHash (store w)); [|exact H].
    now apply cadence_startPolling.
  - destruct (Z.leb_spec 0 dt) as [Hdt|_]; [|exact H].
    revert H. apply cadence_frame; simpl; auto; lia.
  - destruct Hown as [(_ & _ & E) | (i & d & h & di & dd & Ei & Ed & Hid & E)].
    + rewrite (fireTimer_none id w E). exact H.
    + destruct (Nat.eq_dec id i) as [->|Hi].
      * destruct (Z_le_gt_dec di (now w)) as [Hdue|Hdue].
        -- rewrite (fireTimer_tick w i d h di dd Hid E Hdue).
           destruct H as (H1 & H2).
           destruct (H2 (mkTimer i (PollTick h) di)) as [Hi1 _];
             [rewrite E; now left|].
           destruct (H2 (mkTimer d Deadline dd)) as [_ Hd2];
             [rewrite E; right; now left|].
           specialize (Hi1 h eq_refl). simpl in Hi1, Hd2.
           unfold cadence, checkTransactionStatus. simpl.
           rewrite length_app. simpl length.
           unfold POLLING_INTERVAL, MAX_POLLING_DURATION in *.
           split; [lia|].
           intros t [<- | [<- | []]]; simpl;
             (split; [intros h' Hk; try discriminate Hk|]);
             unfold POLLING_INTERVAL, MAX_POLLING_DURATION; lia.
        -- rewrite (fireTimer_tick_early w i d h di dd Hid E) by lia. exact H.
      * destruct (Nat.eq_dec id d) as [->|Hd].
        -- destruct (Z_le_gt_dec dd (now w)) as [Hdue|Hdue].
           ++ rewrite (fireTimer_deadline w i d h di dd Hid E Ei Ed Hdue).
              revert H. apply cadence_frame; simpl; auto; lia.
           ++ rewrite (fireTimer_deadline_early w i d h di dd Hid E) by lia.
              exact H.
        -- rewrite (fireTimer_other w i d h di dd Hid E id Hi Hd). exact H.
  - destruct (resume_frame q (checkTransactionStatus_resume r) w) as [-> | ->];
      [exact H|].
    rewrite checkTransactionStatus_resume_owned by exact Hh.
    destruct r as [|[| |]]; revert H; apply cadence_frame; simpl; auto; lia.
  - destruct (resume_frame q checkTransactionStatus_catch w) as [-> | ->];
      [exact H|].
    revert H. apply cadence_frame; simpl; auto; lia.
Qed.

Lemma exec_cadence (es : list Event) (w : World) :
  timers_owned w -> cadence w -> cadence (exec es w).
Proof.
  revert w. induction es as [|e es IH]; intros w Hown H; [exact H|].
  rewrite exec_cons. apply IH.
  - now apply step_timers_owned.
  - now apply step_cadence.
Qed.

(** X9.  The node is asked at most once per polling interval: in every
    state the observer reaches from its start at time 0, the number of
    status queries issued so far, times 3000 ms, is at most the time that
    has passed, whatever sessions were started, cancelled or resumed on
    the way.  And no timer is ever due later than its period from now:
    3000 ms for the tick, 60000 ms for the deadline. *)
Theorem polling_cadence (es : list Event) :
  3000 * Z.of_nat (length (queries (exec es initialWorld)))
  <= now (exec es initialWorld)
  /\ (forall t, In t (timers (exec es initialWorld)) ->
        t_due t <= now (exec es initialWorld) + period (t_kind t)).
Proof.
  assert (H0 : cadence initialWorld).
  { split; [simpl; lia | intros t []]. }
  destruct (exec_cadence es _ initial_timers_owned H0) as (H1 & H2).
  split; [exact H1|].
  intros t Hin. exact (proj2 (H2 t Hin)).
Qed.

(** *** What an event can write *)

(** X10.  Time, timers and the network never touch the stored hash, and
    the only tags they write are [confirmed], with the message left as it
    is, and [failed], with the message of the timeout or of the ledger
    failure. *)
Theorem poller_writes_outcomes_only (e : Event) (w : World) :
  is_environment e = true ->
  transactionHash (store (step e w)) = transactionHash (store w)
  /\ (store (step e w) = store w
      \/ (transactionState (store (step e w)) = confirmed
          /\ transactionError (store (step e w)) = transactionError (store w))
      \/ (transactionState (store (step e w)) = failed
          /\ (transactionError (store (step e w)) = Some timeout_message
              \/ transactionError (store (step e w))
                 = Some "Transaction failed on the ledger."))).
Proof.
  intros He. destruct e; try discriminate He; cbn [step].
  - destruct (0 <=? dt); auto.
  - destruct (store_fireTimer id w) as [-> | ->]; simpl; auto.
    split; [reflexivity|]. right. right. auto.
  - destruct (store_resume q (checkTransactionStatus_resume r) w)
      as [-> | (w' & E & ->)]; [auto|].
    rewrite store_checkTransactionStatus_resume, E.
    destruct r as [|[| |]]; simpl; auto.
    split; [reflexivity|]. right. right. auto.
  - destruct (store_resume q checkTransactionStatus_catch w)
      as [-> | (w' & E & ->)]; [auto|].
    simpl. rewrite E. auto.
Qed.

Lemma poller_writes_outcomes_only_witness :
  let w := exec [CallMarkSubmitted "h1"; Advance 3000; TimerFire 0]
             initialWorld in
  let w' := step (QueryReturn 0 (RStatus FAILED)) w in
  transactionHash (store w') = Some "h1"
  /\ (store w' = store w
      \/ (transactionState (store w') = confirmed
          /\ transactionError (store w') = None)
      \/ (transactionState (store w') = failed
          /\ (transactionError (store w') = Some timeout_message
              \/ transactionError (store w')
                 = Some "Transaction failed on the ledger."))).
Proof.
  exact (poller_writes_outcomes_only (QueryReturn 0 (RStatus FAILED))
           (exec [CallMarkSubmitted "h1"; Advance 3000; TimerFire 0]
              initialWorld) eq_refl).
Defined.

(** X11.  The tag [idle] comes from an explicit reset only: if the tag is
    [idle] after an event, the event was a call of [resetState] or the tag
    was [idle] before.  No timer, answer or other mutator brings it back. *)
Theorem idle_only_by_reset (e : Event) (w : World) :
  transactionState (store (step e w)) = idle ->
  e = CallResetState \/ transactionState (store w) = idle.
Proof.
  destruct e; cbn [step]; try (simpl; discriminate); auto.
  - unfold markSubmitted. rewrite store_startPolling. discriminate.
  - unfold resumeIfPending. destruct (_ && _); [|auto].
    destruct (transactionHash (store w)); [|auto].
    rewrite store_startPolling. discriminate.
  - destruct (0 <=? dt); auto.
  - destruct (store_fireTimer id w) as [-> | ->]; [auto | discriminate].
  - destruct (store_resume q (checkTransactionStatus_resume r) w)
      as [-> | (w' & E & ->)]; [auto|].
    rewrite store_checkTransactionStatus_resume, E.
    destruct r as [|[| |]]; auto; discriminate.
  - destruct (store_resume q checkTransactionStatus_catch w)
      as [-> | (w' & E & ->)]; [auto|].
    simpl. rewrite E. auto.
Qed.

Lemma idle_only_by_reset_witness :
  transactionState
    (store (step CallResetState
              (exec [CallMarkSubmitted "h1"; Advance 60000; TimerFire 1]
                 initialWorld))) = idle
  /\ (CallResetState = CallResetState
      \/ transactionState
           (store (exec [CallMarkSubmitted "h1"; Advance 60000; TimerFire 1]
                     initialWorld)) = idle).
Proof.
  exact (conj eq_refl
           (idle_only_by_reset CallResetState
              (exec [CallMarkSubmitted "h1"; Advance 60000; TimerFire 1]
                 initialWorld) eq_refl)).
Defined.

(* ================================================================== *)
(** ** What a mint does to the rest of the process *)

Lemma same_poller_refl (w : World) : same_poller w w.
Proof. repeat split. Qed.

Lemma same_poller_trans (w1 w2 w3 : World) :
  same_poller w1 w2 -> same_poller w2 w3 -> same_poller w1 w3.
Proof.
  unfold same_poller.
  intros (A1 & A2 & A3 & A4 & A5 & A6 & A7) (B1 & B2 & B3 & B4 & B5 & B6 & B7).
  repeat split; congruence.
Qed.

Lemma keeps_ret {A} (a : A) : keeps_poller (ret a).
Proof. intros w. apply same_poller_refl. Qed.

Lemma keeps_throw {A} (e : Thrown) : keeps_poller (@throw A e).
Proof. intros w. apply same_poller_refl. Qed.

Lemma keeps_bind {A B} (m : M A) (k : A -> M B) :
  keeps_poller m -> (forall a, keeps_poller (k a)) -> keeps_poller (bind m k).
Proof.
  intros Hm Hk w. unfold bind. specialize (Hm w).
  destruct (m w) as [w1 [a|e]]; simpl in *; [|exact Hm].
  exact (same_poller_trans _ _ _ Hm (Hk a w1)).
Qed.

Lemma keeps_try_catch {A} (m : M A) (h : Thrown -> M A) :
  keeps_poller m -> (forall e, keeps_poller (h e)) ->
  keeps_poller (try_catch m h).
Proof.
  intros Hm Hh w. unfold try_catch. specialize (Hm w).
  destruct (m w) as [w1 [a|e]]; simpl in *; [exact Hm|].
  exact (same_poller_trans _ _ _ Hm (Hh e w1)).
Qed.

Lemma keeps_store_set (p : Patch) : keeps_poller (lift (store_set p)).
Proof. intros w. repeat split. Qed.

Lemma keeps_initWalletKit (env : Env) : keeps_poller (initWalletKit env).
Proof.
  intros w. unfold initWalletKit.
  destruct (negb (isInitialized w) && hasWindow env); [|apply same_poller_refl].
  destruct (kitInit env); repeat split.
Qed.

Lemma keeps_fetchIndexedStats (env : Env) (a n p : string) :
  keeps_poller (fetchIndexedStats env a n p).
Proof.
  intros w. unfold fetchIndexedStats.
  destruct (encodeURIComponent env a); [|repeat split].
  destruct (fetch env _) as [|[|] st [| |data]]; repeat split.
Qed.

Lemma keeps_quiet (obs : Observer) (state : string) (data : Payload) :
  quiet obs -> keeps_poller (obs state data).
Proof.
  intros Hq w. rewrite (Hq state data w). apply same_poller_refl.
Qed.

Lemma keeps_bridgedObserver
    (observer : option Observer) (state : string) (data : Payload) :
  (forall obs, observer = Some obs -> quiet obs) ->
  keeps_poller (bridgedObserver observer state data).
Proof.
  intros Hq. unfold bridgedObserver. apply keeps_bind.
  - destruct observer as [obs|]; [|apply keeps_ret].
    apply keeps_quiet, Hq. reflexivity.
  - intros _.
    repeat (match goal with
            | |- context [String.eqb state ?s] => destruct (String.eqb state s)
            end; try exact (keeps_store_set _)); try apply keeps_ret.
    + apply keeps_bind; [exact (keeps_store_set _)|]. intros _.
      destruct data as [|fields]; [apply keeps_ret|].
      destruct (property "transactionHash" fields);
        [exact (keeps_store_set _) | apply keeps_ret].
    + apply keeps_bind; [exact (keeps_store_set _)|]. intros _.
      destruct data as [|fields]; [apply keeps_ret|].
      destruct (property "error" fields);
        [exact (keeps_store_set _) | apply keeps_ret].
Qed.

Lemma keeps_run_bridge (b : Bridge) (obs : Observer) :
  (forall state data, keeps_poller (obs state data)) ->
  keeps_poller (run_bridge b obs).
Proof.
  intros Ho. induction b as [h | e | state data k IH].
  - apply keeps_ret.
  - apply keeps_throw.
  - intros w. cbn [run_bridge]. specialize (Ho state data w).
    destruct (obs state data w) as [w1 [u|e]]; simpl in Ho.
    + exact (same_poller_trans _ _ _ Ho (IH None w1)).
    + exact (same_poller_trans _ _ _ Ho (IH (Some e) w1)).
Qed.

Lemma keeps_mintWrap_catch (e : Thrown) : keeps_poller (mintWrap_catch e).
Proof.
  destruct e as [[| | | |] m | v]; simpl; try apply keeps_throw;
    (apply keeps_bind; [exact (keeps_store_set _)|]; intros _;
     apply keeps_bind; [exact (keeps_store_set _)|]; intros _;
     apply keeps_throw).
Qed.

(** X16.  [mintWrap] of [walletKit.ts] works on the store alone: with a
    caller observer that is absent or leaves the process as it is,
    whatever the collaborators do, a mint leaves the handles, timers,
    pending and issued status queries of the [transactionObserver]
    untouched.  A polling session that was set before the mint is set
    after it. *)
Theorem mintWrap_leaves_poller
    (env : Env) (params : MintWrapParams) (w : World) :
  (forall obs, observer params = Some obs -> quiet obs) ->
  same_poller w (fst (mintWrap env params w)).
Proof.
  intros Hq. revert w. change (keeps_poller (mintWrap env params)).
  unfold mintWrap. apply keeps_try_catch; [|apply keeps_mintWrap_catch].
  unfold mintWrap_try. apply keeps_bind.
  - unfold mintWrap_prepare.
    apply keeps_bind; [apply keeps_initWalletKit|]. intros _.
    apply keeps_bind.
    + destruct (stats params); [apply keeps_ret|].
      apply keeps_bind; [apply keeps_fetchIndexedStats|].
      intros s. apply keeps_ret.
    + intros s.
      apply keeps_bind; [exact (keeps_store_set _)|]. intros _.
      apply keeps_bind; [exact (keeps_store_set _)|]. intros _.
      apply keeps_ret.
  - intros options. unfold mintWrap_invoke.
    apply keeps_bind.
    + apply keeps_run_bridge. intros state data.
      now apply keeps_bridgedObserver.
    + intros h.
      apply keeps_bind; [exact (keeps_store_set _)|]. intros _.
      apply keeps_bind; [exact (keeps_store_set _)|]. intros _.
      apply keeps_ret.
Qed.

Lemma mintWrap_leaves_poller_witness :
  let w := exec [CallMarkSubmitted "h1"; Advance 3000; TimerFire 0]
             initialWorld in
  let w' := fst (mintWrap (env_with (bridge_confirms "h2"))
                   (params_with (Some throwing_observer)) w) in
  quiet throwing_observer
  /\ timers w' = [mkTimer 0 (PollTick "h1") 6000; mkTimer 1 Deadline 60000]
  /\ pending w' = [(0%nat, "h1")]
  /\ same_poller w w'.
Proof.
  assert (Hq : quiet throwing_observer) by (intros s d w; reflexivity).
  pose proof (mintWrap_leaves_poller
                (env_with (bridge_confirms "h2"))
                (params_with (Some throwing_observer))
                (exec [CallMarkSubmitted "h1"; Advance 3000; TimerFire 0]
                   initialWorld)
                (fun obs E => match E in _ = o
                                    return match o with
                                           | Some x => quiet x
                                           | None => True
                                           end
                              with eq_refl => Hq end)) as H.
  exact (conj Hq (conj eq_refl (conj eq_refl H))).
Defined.

(* ================================================================== *)
(** ** The outcomes of a mint *)

(** X12.  [mintWrap] of [walletKit.ts] ends in one of three ways.  It
    returns a hash, and then the store shows [confirmed] with that hash.
    Or it throws an error of one of the four configuration and validation
    classes.  Or it throws an [Error] whose message starts with "Minting
    failed: ", and then the store shows [failed] with a message: the
    original one, or the whole text when the original was not an [Error].
    It never throws anything that is not an [Error]. *)
Theorem mintWrap_outcomes (env : Env) (params : MintWrapParams) (w : World) :
  (exists h,
      snd (mintWrap env params w) = Ok h
      /\ transactionState (store (fst (mintWrap env params w))) = confirmed
      /\ transactionHash (store (fst (mintWrap env params w))) = Some h)
  \/ (exists e,
         snd (mintWrap env params w) = Throw e
         /\ is_configuration_error e = true)
  \/ (exists m,
         snd (mintWrap env params w)
         = Throw (ThrownError PlainError ("Minting failed: " ++ m))
         /\ transactionState (store (fst (mintWrap env params w))) = failed
         /\ (transactionError (store (fst (mintWrap env params w))) = Some m
             \/ (m = "Unknown error occurred"
                 /\ transactionError (store (fst (mintWrap env params w)))
                    = Some ("Minting failed: " ++ m)))).
Proof.
  unfold mintWrap, try_catch.
  destruct (mintWrap_try env params w) as [w1 [h|e]] eqn:Et.
  - left. exists h. split; [reflexivity|].
    unfold mintWrap_try, bind in Et.
    destruct (mintWrap_prepare env params w) as [w0 [o|e0]]; [|discriminate Et].
    unfold mintWrap_invoke, bind in Et.
    destruct (run_bridge _ _ w0) as [w2 [h'|e2]]; [|discriminate Et].
    simpl in Et. injection Et as <- <-. split; reflexivity.
  - destruct e as [[| | | |] m | v]; simpl.
    + right. left. eexists. split; reflexivity.
    + right. left. eexists. split; reflexivity.
    + right. left. eexists. split; reflexivity.
    + right. left. eexists. split; reflexivity.
    + right. right. exists m. split; [reflexivity|]. split; [reflexivity|].
      now left.
    + right. right. exists "Unknown error occurred".
      split; [reflexivity|]. split; [reflexivity|]. right. split; reflexivity.
Qed.

(** X13.  The [try] of [mintWrap] up to the call of the bridge can only
    fail in [initWalletKit], and then nothing was written.  Otherwise the
    bridge is called with the caller's address and network and a timeframe
    that is never empty, in a store that was reset and set to [building]
    by exactly these two writes, so hash and message of an earlier mint
    are gone.  Statistics the caller supplied are handed on as they are,
    and the stats source is not asked: nothing is logged. *)
Theorem mint_starts_clean (env : Env) (params : MintWrapParams) (w : World) :
  match snd (mintWrap_prepare env params w) with
  | Ok options =>
      store (fst (mintWrap_prepare env params w))
      = {| transactionState := building;
           transactionHash := None; transactionError := None |}
      /\ writes (fst (mintWrap_prepare env params w))
         = (writes w ++ [PReset; PState building])%list
      /\ accountAddress options = userAddress params
      /\ opt_network options = network params
      /\ opt_timeframe (opt_stats options) <> ""
      /\ (forall s, stats params = Some s ->
            opt_totalVolume (opt_stats options) = stats_totalVolume s
            /\ opt_mostActiveAsset (opt_stats options) = stats_mostActiveAsset s
            /\ opt_contractCalls (opt_stats options) = stats_contractCalls s
            /\ (forall t, stats_timeframe s = Some t -> t <> "" ->
                          opt_timeframe (opt_stats options) = t)
            /\ warnings (fst (mintWrap_prepare env params w)) = warnings w)
  | Throw e =>
      kitInit env = Some e /\ fst (mintWrap_prepare env params w) = w
  end.
Proof.
  assert (Htf : forall x, string_or x "all" <> "").
  { intros [v|]; simpl; [|discriminate].
    destruct (String.eqb_spec v ""); [discriminate | assumption]. }
  unfold mintWrap_prepare, bind, initWalletKit.
  destruct (negb (isInitialized w) && hasWindow env);
    [destruct (kitInit env) as [e|]; [simpl; auto|]|].
  - destruct (stats params) as [s|] eqn:Es; simpl.
    + repeat split; try apply Htf; try (now rewrite <- app_assoc);
        injection H as <-; try reflexivity.
      intros t Et Hne. rewrite Et. simpl.
      destruct (String.eqb_spec t ""); [contradiction | reflexivity].
    + destruct (fetchIndexedStats_returns env (userAddress params)
                  (network params) "yearly" (with_isInitialized true w))
        as (wf & sf & Ef).
      rewrite Ef. simpl.
      assert (Ew : writes wf = writes w).
      { pose proof (f_equal fst Ef) as E1. simpl in E1. subst wf.
        unfold fetchIndexedStats.
        destruct (encodeURIComponent env _); [|reflexivity].
        destruct (fetch env _) as [|[|] st [| |data]]; reflexivity. }
      repeat split; try apply Htf; try discriminate.
      rewrite Ew. now rewrite <- app_assoc.
  - destruct (stats params) as [s|] eqn:Es; simpl.
    + repeat split; try apply Htf; try (now rewrite <- app_assoc);
        injection H as <-; try reflexivity.
      intros t Et Hne. rewrite Et. simpl.
      destruct (String.eqb_spec t ""); [contradiction | reflexivity].
    + destruct (fetchIndexedStats_returns env (userAddress params)
                  (network params) "yearly" w) as (wf & sf & Ef).
      rewrite Ef. simpl.
      assert (Ew : writes wf = writes w).
      { pose proof (f_equal fst Ef) as E1. simpl in E1. subst wf.
        unfold fetchIndexedStats.
        destruct (encodeURIComponent env _); [|reflexivity].
        destruct (fetch env _) as [|[|] st [| |data]]; reflexivity. }
      repeat split; try apply Htf; try discriminate.
      rewrite Ew. now rewrite <- app_assoc.
Qed.

(* ================================================================== *)
(** ** What the stats source yields *)

Lemma number_or_not_nan (x : option float) :
  PrimFloat.is_nan (number_or x 0%float) = false.
Proof.
  destruct x as [v|]; simpl; [|reflexivity].
  unfold truthy_number.
  destruct (PrimFloat.is_zero v); simpl; [reflexivity|].
  destruct (PrimFloat.is_nan v) eqn:En; simpl; [reflexivity | exact En].
Qed.

Lemma string_or_not_empty (x : option string) (d : string) :
  d <> "" -> string_or x d <> "".
Proof.
  intros Hd. destruct x as [v|]; simpl; [|exact Hd].
  destruct (String.eqb_spec v ""); assumption.
Qed.

(** X14.  [fetchIndexedStats] always returns, and what it returns can be
    used as it is: neither number is NaN and the asset name is not empty.
    Either the process is left as it was, or one warning was logged and
    the three defaults 0, "XLM", 0 are returned.  When the stats source
    answers ok with a body, nothing is logged, and each value of the body
    that is truthy (a number other than zero and NaN, a non-empty name) is
    handed on unchanged. *)
Theorem fetchIndexedStats_sanitised
    (env : Env) (accountAddress network period : string) (w : World) :
  exists s,
    snd (fetchIndexedStats env accountAddress network period w) = Ok s
    /\ PrimFloat.is_nan (totalVolume s) = false
    /\ PrimFloat.is_nan (contractCalls s) = false
    /\ mostActiveAsset s <> ""
    /\ (fst (fetchIndexedStats env accountAddress network period w) = w
        \/ (fst (fetchIndexedStats env accountAddress network period w)
            = console_log w
            /\ s = defaultStats))
    /\ (forall account st data,
          encodeURIComponent env accountAddress = Some account ->
          fetch env ("/api/wrapped?accountId=" ++ account ++ "&network="
                     ++ network ++ "&period=" ++ period)
          = FetchResponds true st (JsonValue data) ->
          fst (fetchIndexedStats env accountAddress network period w) = w
          /\ (forall v, data_totalVolume data = Some v ->
                        truthy_number v = true -> totalVolume s = v)
          /\ (forall a, data_mostActiveAsset data = Some a ->
                        a <> "" -> mostActiveAsset s = a)
          /\ (forall v, data_contractCalls data = Some v ->
                        truthy_number v = true -> contractCalls s = v)).
Proof.
  unfold fetchIndexedStats.
  destruct (encodeURIComponent env accountAddress) as [account|] eqn:Ea.
  - destruct (fetch env _) as [|ok st json] eqn:Ef;
      [|destruct ok; [destruct json as [| |data]|]].
    4: { eexists. split; [reflexivity|]. simpl.
         split; [apply number_or_not_nan|].
         split; [apply number_or_not_nan|].
         split; [apply string_or_not_empty; discriminate|].
         split; [now left|].
         intros account' st' data' [= <-] Ef'.
         pose proof (eq_trans (eq_sym Ef) Ef') as Ed.
         injection Ed as <- <-.
         split; [reflexivity|]. split; [|split].
         - intros v -> Hv. simpl. now rewrite Hv.
         - intros a -> Ha. simpl.
           destruct (String.eqb_spec a ""); [contradiction | reflexivity].
         - intros v -> Hv. simpl. now rewrite Hv. }
    all: exists defaultStats;
      (split; [reflexivity|]); (split; [reflexivity|]);
      (split; [reflexivity|]); (split; [discriminate|]);
      (split; [right; split; reflexivity|]);
      intros account' st' data' [= <-] Ef';
      pose proof (eq_trans (eq_sym Ef) Ef') as Ed; discriminate Ed.
  - exists defaultStats.
    split; [reflexivity|]. split; [reflexivity|]. split; [reflexivity|].
    split; [discriminate|]. split; [right; split; reflexivity|].
    intros account' st' data' Ea'. discriminate Ea'.
Qed.

(* ================================================================== *)
(** ** The mint of the revision built on [transactionObserver] *)




(* ================================================================== *)
(** ** The tags a mint shows *)

Lemma wmp_ret {A} (a : A) : writes_mint_patches (ret a).
Proof. intros w. exists []. simpl. now rewrite app_nil_r. Qed.

Lemma wmp_throw {A} (e : Thrown) : writes_mint_patches (@throw A e).
Proof. intros w. exists []. simpl. now rewrite app_nil_r. Qed.

Lemma wmp_bind {A B} (m : M A) (k : A -> M B) :
  writes_mint_patches m -> (forall a, writes_mint_patches (k a)) ->
  writes_mint_patches (bind m k).
Proof.
  intros Hm Hk w. unfold bind. destruct (Hm w) as (ps & E & Hp).
  destruct (m w) as [w1 [a|e]]; simpl in *.
  - destruct (Hk a w1) as (qs & E' & Hq). exists (ps ++ qs)%list.
    rewrite E', E, app_assoc, forallb_app, Hp, Hq. auto.
  - exists ps. auto.
Qed.

Lemma wmp_try_catch {A} (m : M A) (h : Thrown -> M A) :
  writes_mint_patches m -> (forall e, writes_mint_patches (h e)) ->
  writes_mint_patches (try_catch m h).
Proof.
  intros Hm Hh w. unfold try_catch. destruct (Hm w) as (ps & E & Hp).
  destruct (m w) as [w1 [a|e]]; simpl in *.
  - exists ps. auto.
  - destruct (Hh e w1) as (qs & E' & Hq). exists (ps ++ qs)%list.
    rewrite E', E, app_assoc, forallb_app, Hp, Hq. auto.
Qed.

Lemma wmp_store_set (p : Patch) :
  mint_patch p = true -> writes_mint_patches (lift (store_set p)).
Proof. intros Hp w. exists [p]. simpl. now rewrite Hp. Qed.

Lemma wmp_same_writes {A} (m : M A) :
  (forall w, writes (fst (m w)) = writes w) -> writes_mint_patches m.
Proof. intros H w. exists []. rewrite H. simpl. now rewrite app_nil_r. Qed.

Lemma wmp_initWalletKit (env : Env) : writes_mint_patches (initWalletKit env).
Proof.
  apply wmp_same_writes. intros w. unfold initWalletKit.
  destruct (negb (isInitialized w) && hasWindow env); [|reflexivity].
  destruct (kitInit env); reflexivity.
Qed.

Lemma wmp_fetchIndexedStats (env : Env) (a n p : string) :
  writes_mint_patches (fetchIndexedStats env a n p).
Proof.
  apply wmp_same_writes. intros w. unfold fetchIndexedStats.
  destruct (encodeURIComponent env a); [|reflexivity].
  destruct (fetch env _) as [|[|] st [| |data]]; reflexivity.
Qed.

Lemma wmp_bridgedObserver
    (observer : option Observer) (state : string) (data : Payload) :
  (forall obs, observer = Some obs -> quiet obs) ->
  writes_mint_patches (bridgedObserver observer state data).
Proof.
  intros Hq. unfold bridgedObserver. apply wmp_bind.
  - destruct observer as [obs|]; [|apply wmp_ret].
    apply wmp_same_writes. intros w. now rewrite (Hq obs eq_refl state data w).
  - intros _.
    repeat (match goal with
            | |- context [String.eqb state ?s] => destruct (String.eqb state s)
            end; try (apply wmp_store_set; reflexivity));
      try apply wmp_ret.
    + apply wmp_bind; [(apply wmp_store_set; reflexivity)|]. intros _.
      destruct data as [|fields]; [apply wmp_ret|].
      destruct (property "transactionHash" fields);
        [(apply wmp_store_set; reflexivity) | apply wmp_ret].
    + apply wmp_bind; [(apply wmp_store_set; reflexivity)|]. intros _.
      destruct data as [|fields]; [apply wmp_ret|].
      destruct (property "error" fields);
        [(apply wmp_store_set; reflexivity) | apply wmp_ret].
Qed.

Lemma wmp_run_bridge (b : Bridge) (obs : Observer) :
  (forall state data, writes_mint_patches (obs state data)) ->
  writes_mint_patches (run_bridge b obs).
Proof.
  intros Ho. induction b as [h | e | state data k IH].
  - apply wmp_ret.
  - apply wmp_throw.
  - intros w. cbn [run_bridge]. destruct (Ho state data w) as (ps & E & Hp).
    destruct (obs state data w) as [w1 [u|e]]; simpl in E.
    + destruct (IH None w1) as (qs & E' & Hq). exists (ps ++ qs)%list.
      rewrite E', E, app_assoc, forallb_app, Hp, Hq. auto.
    + destruct (IH (Some e) w1) as (qs & E' & Hq). exists (ps ++ qs)%list.
      rewrite E', E, app_assoc, forallb_app, Hp, Hq. auto.
Qed.

Lemma wmp_mintWrap_catch (e : Thrown) : writes_mint_patches (mintWrap_catch e).
Proof.
  destruct e as [[| | | |] m | v]; simpl; try apply wmp_throw;
    (apply wmp_bind; [(apply wmp_store_set; reflexivity)|]; intros _;
     apply wmp_bind; [(apply wmp_store_set; reflexivity)|]; intros _;
     apply wmp_throw).
Qed.

(** X17.  Of the eleven tags, a mint by [mintWrap] of [walletKit.ts] shows
    six: with a caller observer that is absent or leaves the process as it
    is, every write to the store during the mint is a reset, a hash, a
    message, or one of the tags building, simulating, signing, submitting,
    confirmed and failed.  The tags simulated, signed, submitted and
    confirming are never written, whatever the bridge reports. *)
Theorem mintWrap_writes_six_tags
    (env : Env) (params : MintWrapParams) (w : World) :
  (forall obs, observer params = Some obs -> quiet obs) ->
  exists ps,
    writes (fst (mintWrap env params w)) = (writes w ++ ps)%list
    /\ forallb mint_patch ps = true.
Proof.
  intros Hq. revert w. change (writes_mint_patches (mintWrap env params)).
  unfold mintWrap. apply wmp_try_catch; [|apply wmp_mintWrap_catch].
  unfold mintWrap_try. apply wmp_bind.
  - unfold mintWrap_prepare.
    apply wmp_bind; [apply wmp_initWalletKit|]. intros _.
    apply wmp_bind.
    + destruct (stats params); [apply wmp_ret|].
      apply wmp_bind; [apply wmp_fetchIndexedStats|].
      intros s. apply wmp_ret.
    + intros s.
      apply wmp_bind; [(apply wmp_store_set; reflexivity)|]. intros _.
      apply wmp_bind; [(apply wmp_store_set; reflexivity)|]. intros _.
      apply wmp_ret.
  - intros options. unfold mintWrap_invoke.
    apply wmp_bind.
    + apply wmp_run_bridge. intros state data.
      now apply wmp_bridgedObserver.
    + intros h.
      apply wmp_bind; [(apply wmp_store_set; reflexivity)|]. intros _.
      apply wmp_bind; [(apply wmp_store_set; reflexivity)|]. intros _.
      apply wmp_ret.
Qed.

Lemma mintWrap_writes_six_tags_witness :
  let w := exec [CallMarkSubmitted "h1"] initialWorld in
  let bridge :=
    bridge_reports [("pending", NoData); ("simulated", NoData);
                    ("signed", NoData); ("confirming", NoData);
                    ("failed", DataObject [("error", "rejected")])] "h2" in
  writes (fst (mintWrap (env_with bridge) (params_with None) w))
  = (writes w
     ++ [ PReset; PState building; PState building; PState signing;
          PState failed; PError (Some "rejected");
          PState confirmed; PHash (Some "h2") ])%list
  /\ exists ps,
       writes (fst (mintWrap (env_with bridge) (params_with None) w))
       = (writes w ++ ps)%list
       /\ forallb mint_patch ps = true.
Proof.
  split; [vm_compute; reflexivity|].
  exact (mintWrap_writes_six_tags
           (env_with
              (bridge_reports [("pending", NoData); ("simulated", NoData);
                               ("signed", NoData); ("confirming", NoData);
                               ("failed", DataObject [("error", "rejected")])]
                 "h2"))
           (params_with None)
           (exec [CallMarkSubmitted "h1"] initialWorld)
           (fun obs E => match E in _ = o
                               return match o with
                                      | Some x => quiet x
                                      | None => True
                                      end
                         with eq_refl => I end)).
Defined.

Lemma kmt_ret {A} (a : A) : keeps_mint_tag (ret a).
Proof. intros w H. exact H. Qed.

Lemma kmt_throw {A} (e : Thrown) : keeps_mint_tag (@throw A e).
Proof. intros w H. exact H. Qed.

Lemma kmt_bind {A B} (m : M A) (k : A -> M B) :
  keeps_mint_tag m -> (forall a, keeps_mint_tag (k a)) ->
  keeps_mint_tag (bind m k).
Proof.
  intros Hm Hk w H. unfold bind. specialize (Hm w H).
  destruct (m w) as [w1 [a|e]]; simpl in *; [|exact Hm].
  exact (Hk a w1 Hm).
Qed.

Lemma kmt_set_tag (t : TransactionState) :
  mint_tag t = true -> keeps_mint_tag (lift (setTransactionState t)).
Proof. intros Ht w _. exact Ht. Qed.

Lemma kmt_set_hash (h : option string) :
  keeps_mint_tag (lift (setTransactionHash h)).
Proof. intros w H. exact H. Qed.

Lemma kmt_set_error (e : option string) :
  keeps_mint_tag (lift (setTransactionError e)).
Proof. intros w H. exact H. Qed.

Lemma kmt_bridgedObserver
    (observer : option Observer) (state : string) (data : Payload) :
  (forall obs, observer = Some obs -> quiet obs) ->
  keeps_mint_tag (bridgedObserver observer state data).
Proof.
  intros Hq. unfold bridgedObserver. apply kmt_bind.
  - destruct observer as [obs|]; [|apply kmt_ret].
    intros w H. now rewrite (Hq obs eq_refl state data w).
  - intros _.
    repeat (match goal with
            | |- context [String.eqb state ?s] => destruct (String.eqb state s)
            end; try (apply kmt_set_tag; reflexivity));
      try apply kmt_ret.
    + apply kmt_bind; [apply kmt_set_tag; reflexivity|]. intros _.
      destruct data as [|fields]; [apply kmt_ret|].
      destruct (property "transactionHash" fields);
        [apply kmt_set_hash | apply kmt_ret].
    + apply kmt_bind; [apply kmt_set_tag; reflexivity|]. intros _.
      destruct data as [|fields]; [apply kmt_ret|].
      destruct (property "error" fields);
        [apply kmt_set_error | apply kmt_ret].
Qed.

Lemma kmt_run_bridge (b : Bridge) (obs : Observer) :
  (forall state data, keeps_mint_tag (obs state data)) ->
  keeps_mint_tag (run_bridge b obs).
Proof.
  intros Ho. induction b as [h | e | state data k IH].
  - apply kmt_ret.
  - apply kmt_throw.
  - intros w H. cbn [run_bridge]. specialize (Ho state data w H).
    destruct (obs state data w) as [w1 [u|e]]; simpl in Ho.
    + exact (IH None w1 Ho).
    + exact (IH (Some e) w1 Ho).
Qed.

Lemma kmt_mintWrap_invoke
    (env : Env) (params : MintWrapParams) (options : MintWrapOptions) :
  (forall obs, observer params = Some obs -> quiet obs) ->
  keeps_mint_tag (mintWrap_invoke env params options).
Proof.
  intros Hq. unfold mintWrap_invoke. apply kmt_bind.
  - apply kmt_run_bridge. intros state data. now apply kmt_bridgedObserver.
  - intros h. apply kmt_bind; [apply kmt_set_tag; reflexivity|]. intros _.
    apply kmt_bind; [apply kmt_set_hash|]. intros _. apply kmt_ret.
Qed.

Lemma kmt_mintWrap_catch (e : Thrown) : keeps_mint_tag (mintWrap_catch e).
Proof.
  destruct e as [[| | | |] m | v]; simpl; try apply kmt_throw;
    (apply kmt_bind; [apply kmt_set_tag; reflexivity|]; intros _;
     apply kmt_bind; [apply kmt_set_error|]; intros _; apply kmt_throw).
Qed.

Lemma mintWrap_prepare_building
    (env : Env) (params : MintWrapParams) (w : World) :
  snd (initWalletKit env w) = Ok tt ->
  exists w1 options,
    mintWrap_prepare env params w = (w1, Ok options)
    /\ transactionState (store w1) = building.
Proof.
  intros Hi. unfold mintWrap_prepare, bind.
  destruct (initWalletKit env w) as [wi [u|e]]; [|discriminate Hi].
  destruct (stats params) as [s|]; simpl.
  - eexists. eexists. split; reflexivity.
  - destruct (fetchIndexedStats_returns env (userAddress params)
                (network params) "yearly" wi) as (wf & sf & Ef).
    rewrite Ef. simpl. eexists. eexists. split; reflexivity.
Qed.

Lemma unresumable (w : World) :
  mint_tag (transactionState (store w)) = true -> resumeIfPending w = w.
Proof.
  intros H. unfold resumeIfPending.
  destruct (transactionState (store w)); try discriminate H; reflexivity.
Qed.

(** X18.  A mint by [mintWrap] of [walletKit.ts] is never picked up by
    [resumeIfPending].  Once [initWalletKit] has not thrown, and with a
    caller observer that is absent or leaves the process as it is, the
    mint ends, returning or throwing, under one of the tags building,
    simulating, signing, submitting, confirmed and failed; under none of
    them does [resumeIfPending] start a polling session. *)
Theorem mint_is_never_resumed
    (env : Env) (params : MintWrapParams) (w : World) :
  (forall obs, observer params = Some obs -> quiet obs) ->
  snd (initWalletKit env w) = Ok tt ->
  mint_tag (transactionState (store (fst (mintWrap env params w)))) = true
  /\ resumeIfPending (fst (mintWrap env params w)) = fst (mintWrap env params w).
Proof.
  intros Hq Hi.
  assert (Ht : mint_tag
                 (transactionState (store (fst (mintWrap env params w)))) = true).
  { destruct (mintWrap_prepare_building env params w Hi) as (w1 & o & Ep & Eb).
    unfold mintWrap, try_catch, mintWrap_try, bind. rewrite Ep.
    assert (H1 : mint_tag (transactionState (store w1)) = true)
      by now rewrite Eb.
    pose proof (kmt_mintWrap_invoke env params o Hq w1 H1) as H2.
    destruct (mintWrap_invoke env params o w1) as [w2 [h|e]]; simpl in *.
    - exact H2.
    - exact (kmt_mintWrap_catch e w2 H2). }
  split; [exact Ht | now apply unresumable].
Qed.

Lemma mint_is_never_resumed_witness :
  let bridge :=
    BNotify "submitted" NoData (fun _ =>
    BThrow (ThrownError ContractValidationError "bad arguments")) in
  let w' := fst (mintWrap (env_with bridge) (params_with None) initialWorld) in
  transactionState (store w') = submitting
  /\ mint_tag (transactionState (store w')) = true
  /\ resumeIfPending w' = w'.
Proof.
  split; [vm_compute; reflexivity|].
  exact (mint_is_never_resumed
           (env_with (BNotify "submitted" NoData (fun _ =>
                      BThrow (ThrownError ContractValidationError
                                "bad arguments"))))
           (params_with None) initialWorld
           (fun obs E => match E in _ = o
                               return match o with
                                      | Some x => quiet x
                                      | None => True
                                      end
                         with eq_refl => I end)
           eq_refl).
Defined.

(* ================================================================== *)
(** ** What changes the stored hash *)

(** X19.  The stored hash changes in two ways only: [markSubmitted] sets
    it to its argument, and [startTransaction] and [resetState] set it to
    null.  Every other call, every timer and every answer of the network
    leaves it as it is, so a hash, once set, stays until the next reset or
    submission, through failure and timeout as well. *)
Theorem hash_changes_by_submit_or_reset (e : Event) (w : World) :
  transactionHash (store (step e w)) = transactionHash (store w)
  \/ (exists h, e = CallMarkSubmitted h
                /\ transactionHash (store (step e w)) = Some h)
  \/ ((e = CallStartTransaction \/ e = CallResetState)
      /\ transactionHash (store (step e w)) = None).
Proof.
  destruct e; cbn [step]; try (left; reflexivity).
  - right. right. split; [now left | reflexivity].
  - right. left. exists txHash. split; [reflexivity|].
    unfold markSubmitted. now rewrite store_startPolling.
  - left. now rewrite store_markFailed.
  - right. right. split; [now right | reflexivity].
  - left. unfold resumeIfPending. destruct (_ && _); [|reflexivity].
    destruct (transactionHash (store w)) eqn:Eh; [|now rewrite Eh].
    rewrite store_startPolling. simpl. now rewrite Eh.
  - left. destruct (0 <=? dt); reflexivity.
  - left. destruct (store_fireTimer id w) as [-> | ->]; reflexivity.
  - left.
    destruct (store_resume q (checkTransactionStatus_resume r) w)
      as [-> | (w' & E & ->)]; [reflexivity|].
    rewrite store_checkTransactionStatus_resume, E.
    destruct r as [|[| |]]; reflexivity.
  - left.
    destruct (store_resume q checkTransactionStatus_catch w)
      as [-> | (w' & E & ->)]; [reflexivity|].
    simpl. now rewrite E.
Qed.
